(** * mip-NeRF: the model of [models/mip_nerf.py]

    A shallow embedding of the two classes of the file, [MLP] and [MipNerf].
    Python exceptions are values of [result]; the numeric runtime (torch,
    einops) is an interface, [TensorOps]; the learned parameters are a second
    interface, [Params]; the five routines imported from [models/mip.py]
    (which is not part of the sources at hand) are section variables of the
    orchestrator. *)

From Stdlib Require Import ZArith List String Bool Lia Reals Lra.
Import ListNotations.
Local Open Scope Z_scope.

(** ** Exceptions *)

Inductive error : Set :=
| NotImplementedError
| ZeroDivisionError
| IndexError
| TypeError
| RuntimeError.

Inductive result (A : Type) : Type :=
| Ok (a : A)
| Raise (e : error).

Arguments Ok {A} a.
Arguments Raise {A} e.

Definition bind {A B : Type} (r : result A) (k : A -> result B) : result B :=
  match r with
  | Ok a => k a
  | Raise e => Raise e
  end.

Notation "x <- r ;; k" := (bind r (fun x => k))
  (at level 61, r at next level, right associativity).
Notation "' p <- r ;; k" := (bind r (fun p => k))
  (at level 61, p pattern, r at next level, right associativity).

Definition raises {A : Type} (r : result A) : bool :=
  match r with
  | Ok _ => false
  | Raise _ => true
  end.

(** ** Python built-ins used by the file *)

(** [range(n)]: empty when [n <= 0]. *)
Definition range (n : Z) : list Z := map Z.of_nat (seq 0 (Z.to_nat n)).

(** [enumerate(l)]. *)
Definition enumerate {A : Type} (l : list A) : list (Z * A) :=
  combine (map Z.of_nat (seq 0 (List.length l))) l.

(** [a % b] on ints: the sign follows the divisor, as [Z.modulo] does, and a
    zero divisor raises. *)
Definition py_mod (a b : Z) : result Z :=
  if b =? 0 then Raise ZeroDivisionError else Ok (a mod b).

(** A [for] loop whose body may raise: the loop state is threaded through
    the items in order and the first exception ends the loop. *)
Fixpoint for_each {I S : Type} (items : list I) (body : I -> S -> result S)
  (s : S) : result S :=
  match items with
  | [] => Ok s
  | i :: rest => s' <- body i s ;; for_each rest body s'
  end.

(** [x > y] on floats. *)
Definition Rgtb (x y : R) : bool := if Rgt_dec x y then true else false.

(** ** MLP: construction *)

(** Which attribute of the [MLP] module a [torch.nn.Linear] is stored in.
    The weights themselves are opaque: a layer is known by its slot and its
    two dimensions. *)
Inductive slot : Set :=
| Hidden (i : Z)
| DensityLayer
| ExtraLayer
| ViewLayer (i : Z)
| ColorLayer.

Record Linear : Set := mkLinear {
  where_ : slot;
  in_features : Z;
  out_features : Z
}.

(** [self.layers] and [self.view_layers] hold
    [Sequential(linear, ReLU(True))] blocks; a block is represented by its
    [Linear], the ReLU being applied by [layer_call] below. *)
Record MLP : Set := mkMLP {
  skip_index : Z;
  layers : list Linear;
  density_layer : Linear;
  extra_layer : Linear;
  view_layers : list Linear;
  color_layer : Linear
}.

(** [torch.nn.Linear(dim_in, dim_out)]: the weight is allocated with
    [out_features] rows and [in_features] columns, and allocating it raises
    on a negative dimension.  A dimension of zero is accepted. *)
Definition new_linear (w : slot) (dim_in dim_out : Z) : result Linear :=
  if (dim_in <? 0) || (dim_out <? 0) then Raise RuntimeError
  else Ok (mkLinear w dim_in dim_out).

(** [_xavier_init(linear)] (lines 7-11).  [xavier_uniform_] scales by
    [sqrt(2.0 / float(fan_in + fan_out))], a division that raises when the
    weight has neither rows nor columns; the values it draws are opaque. *)
Definition _xavier_init (linear : Linear) : result unit :=
  if in_features linear + out_features linear =? 0
  then Raise ZeroDivisionError
  else Ok tt.

(** Body of the first construction loop (lines 35-50). *)
Definition init_layer (net_width skip xyz_dim : Z) (activation : string)
  (i : Z) (acc : list Linear) : result (list Linear) :=
  '(dim_in, dim_out) <-
    (if i =? 0 then Ok (xyz_dim, net_width)
     else
       r <- py_mod (i - 1) skip ;;
       if (r =? 0) && (i >? 1) then Ok (net_width + xyz_dim, net_width)
       else Ok (net_width, net_width)) ;;
  linear <- new_linear (Hidden i) dim_in dim_out ;;
  'tt <- _xavier_init linear ;;
  if (activation =? "relu")%string then Ok (acc ++ [linear])
  else Raise NotImplementedError.

(** Body of the second construction loop (lines 58-70). *)
Definition init_view_layer (net_width net_width_condition view_dim : Z)
  (activation : string) (i : Z) (acc : list Linear) : result (list Linear) :=
  let '(dim_in, dim_out) :=
    if i =? 0 then (net_width + view_dim, net_width_condition)
    else (net_width_condition, net_width_condition) in
  linear <- new_linear (ViewLayer i) dim_in dim_out ;;
  'tt <- _xavier_init linear ;;
  if (activation =? "relu")%string then Ok (acc ++ [linear])
  else Raise NotImplementedError.

(** [MLP.__init__]. *)
Definition MLP_init (net_depth net_width net_depth_condition
  net_width_condition skip num_rgb_channels num_density_channels : Z)
  (activation : string) (xyz_dim view_dim : Z) : result MLP :=
  ls <- for_each (range net_depth)
          (init_layer net_width skip xyz_dim activation) [] ;;
  density <- new_linear DensityLayer net_width num_density_channels ;;
  'tt <- _xavier_init density ;;
  extra <- new_linear ExtraLayer net_width net_width ;;
  'tt <- _xavier_init extra ;;
  vs <- for_each (range net_depth_condition)
          (init_view_layer net_width net_width_condition view_dim activation)
          [] ;;
  color <- new_linear ColorLayer net_width_condition num_rgb_channels ;;
  Ok (mkMLP skip ls density extra vs color).

(** ** The numeric runtime *)

(** The torch and einops operations the file calls.  [generator] is the state
    of torch's default (process-wide) random generator, which [torch.randn]
    reads and advances. *)
Class TensorOps : Type := {
  tensor : Type;
  generator : Type;
  (** [t.shape] *)
  shape : tensor -> list Z;
  (** [torch.nn.ReLU(True)] *)
  relu : tensor -> tensor;
  (** [torch.cat([a, b], dim=-1)] *)
  cat : tensor -> tensor -> result tensor;
  (** [repeat(v, 'batch feature -> batch sample feature', sample=n)] *)
  repeat_sample : tensor -> Z -> result tensor;
  (** [torch.zeros_like(t)] *)
  zeros_like : tensor -> tensor;
  (** [torch.nn.Sigmoid()(t)] *)
  sigmoid : tensor -> tensor;
  (** [torch.nn.Softplus()(t)] *)
  softplus : tensor -> tensor;
  (** [t * c] and [c * t] for a Python float [c] *)
  mul_scalar : tensor -> R -> tensor;
  (** [t - c] *)
  sub_scalar : tensor -> R -> tensor;
  (** [t + c] *)
  add_scalar : tensor -> R -> tensor;
  (** [a += b] for tensors of one shape *)
  add : tensor -> tensor -> tensor;
  (** [torch.randn(shape, dtype=...)] *)
  randn : list Z -> generator -> tensor * generator
}.

(** The learned parameters: what calling a [torch.nn.Linear] stored in the
    model does to its input. *)
Class Params (T : TensorOps) : Type := {
  linear : Linear -> tensor -> result tensor
}.

(** The activation modules [MipNerf.__init__] stores. *)
Inductive Activation : Set := Sigmoid | Softplus.

Definition activate {T : TensorOps} (a : Activation) (t : tensor) : tensor :=
  match a with
  | Sigmoid => sigmoid t
  | Softplus => softplus t
  end.

(** ** MLP: forward *)

Section MLPForward.
Context {T : TensorOps} {P : Params T}.

(** Calling one [Sequential(linear, ReLU(True))] block. *)
Definition layer_call (l : Linear) (x : tensor) : result tensor :=
  y <- linear l x ;; Ok (relu y).

(** Body of the loop over [enumerate(self.layers)] (lines 94-97). *)
Definition stack_step (skip : Z) (inputs : tensor) (il : Z * Linear)
  (x : tensor) : result tensor :=
  let '(i, layer) := il in
  x <- layer_call layer x ;;
  r <- py_mod i skip ;;
  if (r =? 0) && (i >? 0) then cat x inputs else Ok x.

(** The whole loop, started on [x]; [inputs] is the saved encoded input. *)
Definition run_layers (skip : Z) (inputs : tensor)
  (ils : list (Z * Linear)) (x : tensor) : result tensor :=
  for_each ils (stack_step skip inputs) x.

(** [self.view_layers(x)]: a [Sequential] applies its blocks in order. *)
Definition run_view_layers (ls : list Linear) (x : tensor) : result tensor :=
  for_each ls layer_call x.

(** [MLP.forward(x, view_direction)]; returns [(raw_rgb, raw_density)]. *)
Definition MLP_forward (m : MLP) (x : tensor)
  (view_direction : option tensor) : result (tensor * tensor) :=
  num_samples <-
    match nth_error (shape x) 1 with
    | Some n => Ok n
    | None => Raise IndexError
    end ;;
  let inputs := x in
  x <- run_layers (skip_index m) inputs (enumerate (layers m)) x ;;
  raw_density <- linear (density_layer m) x ;;
  x <-
    match view_direction with
    | Some view_direction =>
        bottleneck <- linear (extra_layer m) x ;;
        view_direction <- repeat_sample view_direction num_samples ;;
        x <- cat bottleneck view_direction ;;
        run_view_layers (view_layers m) x
    | None => Ok x
    end ;;
  raw_rgb <- linear (color_layer m) x ;;
  Ok (raw_rgb, raw_density).

End MLPForward.

(** ** MipNerf: construction *)

Record MipNerf : Type := mkMipNerf {
  num_levels : Z;
  num_samples : Z;
  disparity : bool;
  ray_shape : string;
  disable_integration : bool;
  min_deg_point : Z;
  max_deg_point : Z;
  use_viewdirs : bool;
  deg_view : Z;
  density_noise : R;
  density_bias : R;
  resample_padding : R;
  stop_resample_grad : bool;
  mlp : MLP;
  rgb_activation : Activation;
  rgb_padding : R;
  density_activation : Activation
}.

(** [MipNerf.__init__], the keyword arguments in their order of
    declaration. *)
Definition MipNerf_init (num_samples num_levels : Z) (resample_padding : R)
  (stop_resample_grad use_viewdirs disparity : bool) (ray_shape : string)
  (min_deg_point max_deg_point deg_view : Z) (density_activation : string)
  (density_noise density_bias : R) (rgb_activation : string)
  (rgb_padding : R) (disable_integration append_identity : bool)
  (mlp_net_depth mlp_net_width mlp_net_depth_condition
   mlp_net_width_condition mlp_skip_index mlp_num_rgb_channels
   mlp_num_density_channels : Z) (mlp_net_activation : string)
  : result MipNerf :=
  let mlp_xyz_dim := (max_deg_point - min_deg_point) * 3 * 2 in
  let mlp_view_dim := deg_view * 3 * 2 in
  let mlp_view_dim := if append_identity then mlp_view_dim + 3
                      else mlp_view_dim in
  mlp <- MLP_init mlp_net_depth mlp_net_width mlp_net_depth_condition
           mlp_net_width_condition mlp_skip_index mlp_num_rgb_channels
           mlp_num_density_channels mlp_net_activation mlp_xyz_dim
           mlp_view_dim ;;
  rgb_act <- (if (rgb_activation =? "sigmoid")%string then Ok Sigmoid
              else Raise NotImplementedError) ;;
  density_act <- (if (density_activation =? "softplus")%string then Ok Softplus
                  else Raise NotImplementedError) ;;
  Ok (mkMipNerf num_levels num_samples disparity ray_shape
        disable_integration min_deg_point max_deg_point use_viewdirs
        deg_view density_noise density_bias resample_padding
        stop_resample_grad mlp rgb_act rgb_padding density_act).

(** The constructor called with the defaults of its signature for every
    argument but four. *)
Definition MipNerf_default (num_levels : Z) (ray_shape : string)
  (density_noise : R) (append_identity : bool) : result MipNerf :=
  MipNerf_init 128 num_levels (1 / 100)%R true true false ray_shape 0 16 4
    "softplus" density_noise (-1)%R "sigmoid" (1 / 1000)%R false
    append_identity 8 256 1 128 4 3 1 "relu".

(** ** MipNerf: forward *)

(** The [rays] namedtuple, with the fields [forward] reads. *)
Record Rays {T : TensorOps} : Type := mkRays {
  origins : tensor;
  directions : tensor;
  viewdirs : tensor;
  radii : tensor;
  near : tensor;
  far : tensor
}.

Section Orchestrator.
Context {T : TensorOps} {P : Params T}.

(** Code that may raise and may draw from the default generator. *)
Definition M (A : Type) : Type := generator -> result (A * generator).

Definition mret {A : Type} (a : A) : M A := fun g => Ok (a, g).

Definition mbind {A B : Type} (c : M A) (k : A -> M B) : M B :=
  fun g =>
    match c g with
    | Ok (a, g') => k a g'
    | Raise e => Raise e
    end.

(** A call that does not touch the generator. *)
Definition pure_call {A : Type} (r : result A) : M A :=
  fun g =>
    match r with
    | Ok a => Ok (a, g)
    | Raise e => Raise e
    end.

Fixpoint for_eachM {I S : Type} (items : list I) (body : I -> S -> M S)
  (s : S) : M S :=
  match items with
  | [] => mret s
  | i :: rest => mbind (body i s) (for_eachM rest body)
  end.

(** The routines of [models/mip.py], imported at line 3.  The two samplers
    may draw from the generator; all of them may raise. *)
Variable sample_along_rays :
  tensor -> tensor -> tensor -> Z -> tensor -> tensor -> bool -> bool ->
  string -> M (tensor * (tensor * tensor)).
Variable resample_along_rays :
  tensor -> tensor -> tensor -> tensor -> tensor -> bool -> string ->
  bool -> R -> M (tensor * (tensor * tensor)).
Variable integrated_pos_enc : tensor * tensor -> Z -> Z -> result tensor.
Variable pos_enc : tensor -> Z -> Z -> bool -> result tensor.
Variable volumetric_rendering :
  tensor -> tensor -> tensor -> tensor -> bool ->
  result (tensor * tensor * tensor * tensor).

(** One entry of [ret]:
    [(comp_rgb, distance, acc, weights, t_samples)]. *)
Definition RenderOutput : Type :=
  (tensor * tensor * tensor * tensor * tensor)%type.

(** The variables the loop carries: [ret], [t_samples], [weights]; the
    last two are [None] before the first level. *)
Definition loop_state : Type :=
  (list RenderOutput * option tensor * option tensor)%type.

(** Lines 186-210: the sampler of the level.  [t_samples] and [weights]
    are [None] only before level 0, which never reads them; handing [None]
    to the Resampler would be a type error. *)
Definition sample_level (m : MipNerf) (rays : Rays) (randomized : bool)
  (i_level : Z) (t_samples weights : option tensor)
  : M (tensor * (tensor * tensor)) :=
  if i_level =? 0 then
    sample_along_rays (origins rays) (directions rays) (radii rays)
      (num_samples m) (near rays) (far rays) randomized (disparity m)
      (ray_shape m)
  else
    match t_samples, weights with
    | Some t_samples, Some weights =>
        resample_along_rays (origins rays) (directions rays) (radii rays)
          t_samples weights randomized (ray_shape m)
          (stop_resample_grad m) (resample_padding m)
    | _, _ => pure_call (Raise TypeError)
    end.

(** Lines 211-217: the encoding of the sample Gaussians. *)
Definition encode_samples (m : MipNerf) (means_covs : tensor * tensor)
  : result tensor :=
  let means_covs :=
    if disable_integration m
    then (fst means_covs, zeros_like (snd means_covs))
    else means_covs in
  integrated_pos_enc means_covs (min_deg_point m) (max_deg_point m).

(** Lines 220-229: the network, with or without view directions. *)
Definition predict (m : MipNerf) (rays : Rays) (samples_enc : tensor)
  : result (tensor * tensor) :=
  if use_viewdirs m then
    viewdirs_enc <- pos_enc (viewdirs rays) 0 (deg_view m) true ;;
    MLP_forward (mlp m) samples_enc (Some viewdirs_enc)
  else
    MLP_forward (mlp m) samples_enc None.

(** Lines 232-233: the density noise. *)
Definition add_density_noise (m : MipNerf) (randomized : bool)
  (raw_density : tensor) : M tensor :=
  if randomized && Rgtb (density_noise m) 0 then
    fun g =>
      let '(noise, g') := randn (shape raw_density) g in
      Ok (add raw_density (mul_scalar noise (density_noise m)), g')
  else mret raw_density.

(** Lines 236-237: the colour handed to the integrator. *)
Definition rgb_of_raw (m : MipNerf) (raw_rgb : tensor) : tensor :=
  let rgb := activate (rgb_activation m) raw_rgb in
  sub_scalar (mul_scalar rgb (1 + 2 * rgb_padding m)%R) (rgb_padding m).

(** Line 238: the density handed to the integrator. *)
Definition density_of_raw (m : MipNerf) (raw_density : tensor) : tensor :=
  activate (density_activation m) (add_scalar raw_density (density_bias m)).

(** The body of the loop over the levels (lines 185-246). *)
Definition level (m : MipNerf) (rays : Rays) (randomized white_bkgd : bool)
  (i_level : Z) (st : loop_state) : M loop_state :=
  let '(ret, t_samples, weights) := st in
  mbind (sample_level m rays randomized i_level t_samples weights)
    (fun '(t_samples, means_covs) =>
  mbind (pure_call (encode_samples m means_covs)) (fun samples_enc =>
  mbind (pure_call (predict m rays samples_enc))
    (fun '(raw_rgb, raw_density) =>
  mbind (add_density_noise m randomized raw_density) (fun raw_density =>
  let rgb := rgb_of_raw m raw_rgb in
  let density := density_of_raw m raw_density in
  mbind (pure_call (volumetric_rendering rgb density t_samples
                      (directions rays) white_bkgd))
    (fun '(comp_rgb, distance, acc, weights) =>
  mret (ret ++ [(comp_rgb, distance, acc, weights, t_samples)],
        Some t_samples, Some weights)))))).

(** [MipNerf.forward(rays, randomized, white_bkgd)]. *)
Definition MipNerf_forward (m : MipNerf) (rays : Rays)
  (randomized white_bkgd : bool) : M (list RenderOutput) :=
  mbind (for_eachM (range (num_levels m))
           (level m rays randomized white_bkgd) ([], None, None))
    (fun '(ret, _, _) => mret ret).

End Orchestrator.

(** ** Symbolic tensors

    An instance of the runtime that computes the shape of every tensor and
    records, as a term, the calls that produced it.  Two tensors are equal
    when they have one shape and were computed by the same calls on the same
    arguments; the state of the default generator is the number of draws made
    so far. *)

Inductive term : Type :=
| Input (name : string)
| Call (fn : string) (args : list arg) (out : nat)
with arg : Type :=
| ATensor (t : term)
| AInt (n : Z)
| ABool (b : bool)
| AFloat (x : R)
| AStr (s : string)
| ALinear (l : Linear)
| AGen (g : nat).

Record sym : Type := mkSym {
  sym_shape : list Z;
  sym_term : term
}.

Definition targ (t : sym) : arg := ATensor (sym_term t).

(** [l[:-1], l[-1]]. *)
Fixpoint split_last (l : list Z) : option (list Z * Z) :=
  match l with
  | [] => None
  | [d] => Some ([], d)
  | d :: rest =>
      match split_last rest with
      | Some (lead, last) => Some (d :: lead, last)
      | None => None
      end
  end.

Fixpoint shape_eqb (a b : list Z) : bool :=
  match a, b with
  | [], [] => true
  | x :: a', y :: b' => (x =? y) && shape_eqb a' b'
  | _, _ => false
  end.

(** A pointwise operation keeps the shape. *)
Definition sym_map (fn : string) (extra : list arg) (t : sym) : sym :=
  mkSym (sym_shape t) (Call fn (targ t :: extra) 0).

Definition sym_cat (a b : sym) : result sym :=
  match split_last (sym_shape a), split_last (sym_shape b) with
  | Some (la, da), Some (lb, db) =>
      if shape_eqb la lb
      then Ok (mkSym (la ++ [da + db]) (Call "cat" [targ a; targ b] 0))
      else Raise RuntimeError
  | _, _ => Raise RuntimeError
  end.

Definition sym_repeat (v : sym) (n : Z) : result sym :=
  match sym_shape v with
  | [batch; feature] =>
      Ok (mkSym [batch; n; feature] (Call "repeat" [targ v; AInt n] 0))
  | _ => Raise RuntimeError
  end.

Definition sym_randn (sh : list Z) (g : nat) : sym * nat :=
  (mkSym sh (Call "randn" [AGen g] 0), S g).

#[export] Instance SymOps : TensorOps := {|
  tensor := sym;
  generator := nat;
  shape := sym_shape;
  relu := sym_map "relu" [];
  cat := sym_cat;
  repeat_sample := sym_repeat;
  zeros_like := sym_map "zeros_like" [];
  sigmoid := sym_map "sigmoid" [];
  softplus := sym_map "softplus" [];
  mul_scalar := fun t c => sym_map "mul_scalar" [AFloat c] t;
  sub_scalar := fun t c => sym_map "sub_scalar" [AFloat c] t;
  add_scalar := fun t c => sym_map "add_scalar" [AFloat c] t;
  add := fun a b => sym_map "add" [targ b] a;
  randn := sym_randn
|}.

(** A [torch.nn.Linear] accepts an input whose last dimension is its
    [in_features] and replaces that dimension by [out_features]; any other
    input is a shape error. *)
Definition sym_linear (l : Linear) (x : sym) : result sym :=
  match split_last (sym_shape x) with
  | Some (lead, d) =>
      if d =? in_features l
      then Ok (mkSym (lead ++ [out_features l])
                 (Call "linear" [ALinear l; targ x] 0))
      else Raise RuntimeError
  | None => Raise RuntimeError
  end.

#[export] Instance SymParams : Params SymOps := {|
  linear := sym_linear
|}.

(** The arguments of a sampler call; a randomized call also reads the
    generator. *)
Definition sampler_args (randomized : bool) (g : nat) (args : list arg)
  : list arg :=
  if randomized then args ++ [AGen g] else args.

(** Modelled from the spec: [sample_along_rays] of [models/mip.py], shapes
    only.  For [batch] rays and [num_samples] samples the Ray Sampler returns
    [num_samples + 1] depths per ray (the SampleSet [t_0 < ... < t_N]) and one
    Gaussian (mean, diagonal covariance) per interval; it draws jitter only
    when randomized. *)
Definition sym_sample_along_rays (origins directions radii : sym)
  (num_samples : Z) (near far : sym) (randomized disparity : bool)
  (ray_shape : string) (g : nat) : result ((sym * (sym * sym)) * nat) :=
  match sym_shape origins with
  | [batch; 3] =>
      let args := sampler_args randomized g
        [targ origins; targ directions; targ radii; AInt num_samples;
         targ near; targ far; ABool randomized; ABool disparity;
         AStr ray_shape] in
      let out := Call "sample_along_rays" args in
      Ok ((mkSym [batch; num_samples + 1] (out 0%nat),
           (mkSym [batch; num_samples; 3] (out 1%nat),
            mkSym [batch; num_samples; 3] (out 2%nat))),
          if randomized then S g else g)
  | _ => Raise RuntimeError
  end.

(** Modelled from the spec: [resample_along_rays] of [models/mip.py], shapes
    only.  The Resampler consumes the previous SampleSet and weights and
    draws as many new depths; it draws jitter only when randomized. *)
Definition sym_resample_along_rays (origins directions radii t_samples
  weights : sym) (randomized : bool) (ray_shape : string)
  (stop_grad : bool) (resample_padding : R) (g : nat)
  : result ((sym * (sym * sym)) * nat) :=
  match sym_shape weights with
  | [batch; n] =>
      let args := sampler_args randomized g
        [targ origins; targ directions; targ radii; targ t_samples;
         targ weights; ABool randomized; AStr ray_shape; ABool stop_grad;
         AFloat resample_padding] in
      let out := Call "resample_along_rays" args in
      Ok ((mkSym [batch; n + 1] (out 0%nat),
           (mkSym [batch; n; 3] (out 1%nat),
            mkSym [batch; n; 3] (out 2%nat))),
          if randomized then S g else g)
  | _ => Raise RuntimeError
  end.

(** Modelled from the spec: [integrated_pos_enc] of [models/mip.py], shapes
    only: an EncodedFeature of length [2 * 3 * (max_deg - min_deg)] per
    sample. *)
Definition sym_integrated_pos_enc (means_covs : sym * sym)
  (min_deg max_deg : Z) : result sym :=
  match sym_shape (fst means_covs) with
  | [batch; n; 3] =>
      Ok (mkSym [batch; n; 2 * 3 * (max_deg - min_deg)]
            (Call "integrated_pos_enc"
               [targ (fst means_covs); targ (snd means_covs); AInt min_deg;
                AInt max_deg] 0))
  | _ => Raise RuntimeError
  end.

(** Modelled from the spec: [pos_enc] of [models/mip.py], shapes only: an
    EncodedFeature of length [2 * 3 * (max_deg - min_deg)], plus 3 when the
    raw direction is appended. *)
Definition sym_pos_enc (x : sym) (min_deg max_deg : Z)
  (append_identity : bool) : result sym :=
  match sym_shape x with
  | [batch; 3] =>
      Ok (mkSym [batch; 2 * 3 * (max_deg - min_deg)
                        + (if append_identity then 3 else 0)]
            (Call "pos_enc"
               [targ x; AInt min_deg; AInt max_deg; ABool append_identity]
               0))
  | _ => Raise RuntimeError
  end.

(** Modelled from the spec: [volumetric_rendering] of [models/mip.py], shapes
    only: per ray a colour, a distance, an opacity and one weight per
    sample. *)
Definition sym_volumetric_rendering (rgb density t_samples directions : sym)
  (white_bkgd : bool) : result (sym * sym * sym * sym) :=
  match sym_shape rgb with
  | [batch; n; 3] =>
      let out := Call "volumetric_rendering"
        [targ rgb; targ density; targ t_samples; targ directions;
         ABool white_bkgd] in
      Ok (mkSym [batch; 3] (out 0%nat), mkSym [batch] (out 1%nat),
          mkSym [batch] (out 2%nat), mkSym [batch; n] (out 3%nat))
  | _ => Raise RuntimeError
  end.

(** A batch of [batch] rays. *)
Definition sym_rays (batch : Z) : Rays (T := SymOps) := {|
  origins := mkSym [batch; 3] (Input "origins");
  directions := mkSym [batch; 3] (Input "directions");
  viewdirs := mkSym [batch; 3] (Input "viewdirs");
  radii := mkSym [batch; 1] (Input "radii");
  near := mkSym [batch; 1] (Input "near");
  far := mkSym [batch; 1] (Input "far")
|}.

(** [MipNerf.forward] on symbolic tensors. *)
Definition sym_forward (m : MipNerf) (rays : Rays (T := SymOps))
  (randomized white_bkgd : bool) (g : nat)
  : result (list (sym * sym * sym * sym * sym) * nat) :=
  MipNerf_forward sym_sample_along_rays sym_resample_along_rays
    sym_integrated_pos_enc sym_pos_enc sym_volumetric_rendering
    m rays randomized white_bkgd g.

(** ** Real-valued tensors

    An instance of the runtime on real numbers: a tensor is the list of its
    last-axis rows (the leading axes flattened), the pointwise operations are
    the mathematical functions, and the default generator is the stream of
    the values it is going to draw. *)

Definition rows : Type := list (list R).

Definition sigmoidR (x : R) : R := (1 / (1 + exp (- x)))%R.

Definition softplusR (x : R) : R := ln (1 + exp x).

Fixpoint zip_with {A B C : Type} (f : A -> B -> C) (a : list A) (b : list B)
  : list C :=
  match a, b with
  | x :: a', y :: b' => f x y :: zip_with f a' b'
  | _, _ => []
  end.

Definition rows_map (f : R -> R) (t : rows) : rows := map (map f) t.

Definition rows_width (t : rows) : Z :=
  match t with
  | r :: _ => Z.of_nat (List.length r)
  | [] => 0
  end.

Definition rows_shape (t : rows) : list Z :=
  [Z.of_nat (List.length t); rows_width t].

Definition rows_cat (a b : rows) : result rows :=
  if (List.length a =? List.length b)%nat
  then Ok (zip_with (@app R) a b)
  else Raise RuntimeError.

Definition rows_repeat (v : rows) (n : Z) : result rows :=
  Ok (flat_map (fun r => repeat r (Z.to_nat n)) v).

(** The next [count * width] values of the stream, as [count] rows. *)
Definition rows_randn (sh : list Z) (g : nat -> R) : rows * (nat -> R) :=
  match split_last sh with
  | Some (lead, width) =>
      let w := Z.to_nat width in
      let count := Z.to_nat (fold_right Z.mul 1 lead) in
      (map (fun i => map (fun j => g (i * w + j)%nat) (seq 0 w))
           (seq 0 count),
       fun k => g (k + count * w)%nat)
  | None => ([[g 0%nat]], fun k => g (S k))
  end.

#[export] Instance RealOps : TensorOps := {|
  tensor := rows;
  generator := nat -> R;
  shape := rows_shape;
  relu := rows_map (Rmax 0);
  cat := rows_cat;
  repeat_sample := rows_repeat;
  zeros_like := rows_map (fun _ => 0%R);
  sigmoid := rows_map sigmoidR;
  softplus := rows_map softplusR;
  mul_scalar := fun t c => rows_map (fun x => (x * c)%R) t;
  sub_scalar := fun t c => rows_map (fun x => (x - c)%R) t;
  add_scalar := fun t c => rows_map (fun x => (x + c)%R) t;
  add := zip_with (zip_with Rplus);
  randn := rows_randn
|}.

(** The integers of [[lo, hi)]. *)
Definition zrange (lo hi : Z) : list Z :=
  map (fun k => lo + Z.of_nat k) (seq 0 (Z.to_nat (hi - lo))).

(** Modelled from the spec: the integrated positional encoding of
    [models/mip.py] for one sample Gaussian with diagonal covariance.  For
    each frequency [2^j], [j] in [[min_deg, max_deg)], and each axis, the
    sine then the cosine of the scaled mean, each multiplied by
    [exp (-1/2 * 4^j * variance)]; frequency-major. *)
Definition ipe_sample (min_deg max_deg : Z) (mean var : list R) : list R :=
  flat_map (fun j =>
    flat_map (fun '(x, v) =>
      [(sin (powerRZ 2 j * x) * exp (- (1 / 2) * powerRZ 4 j * v))%R;
       (cos (powerRZ 2 j * x) * exp (- (1 / 2) * powerRZ 4 j * v))%R])
      (combine mean var))
    (zrange min_deg max_deg).

(** Modelled from the spec: the plain positional encoding of
    [models/mip.py] for one point: the same sines and cosines without the
    attenuation, and the raw components appended on request. *)
Definition pos_enc_sample (min_deg max_deg : Z) (append_identity : bool)
  (x : list R) : list R :=
  flat_map (fun j =>
    flat_map (fun x =>
      [sin (powerRZ 2 j * x)%R; cos (powerRZ 2 j * x)%R]) x)
    (zrange min_deg max_deg)
  ++ (if append_identity then x else []).

(** Modelled from the spec: [integrated_pos_enc] on a tensor of Gaussians,
    one [ipe_sample] per row. *)
Definition real_integrated_pos_enc (means_covs : rows * rows)
  (min_deg max_deg : Z) : result rows :=
  Ok (zip_with (ipe_sample min_deg max_deg) (fst means_covs)
        (snd means_covs)).

(** Modelled from the spec: [pos_enc] on a tensor of points, one
    [pos_enc_sample] per row. *)
Definition real_pos_enc (x : rows) (min_deg max_deg : Z)
  (append_identity : bool) : result rows :=
  Ok (map (pos_enc_sample min_deg max_deg append_identity) x).

(** Modelled from the spec: step 7 of the Volumetric Integrator of
    [models/mip.py] for one ray, composite colour = sum of weight times
    sample colour, before any background is added. *)
Fixpoint composite_rgb (weights : list R) (rgb : rows) : list R :=
  match weights, rgb with
  | w :: ws, c :: cs => zip_with Rplus (map (Rmult w) c) (composite_rgb ws cs)
  | _, _ => [0; 0; 0]%R
  end.

Definition Rsum (l : list R) : R := fold_right Rplus 0%R l.

(** The padded colour range [[-p, 1 + p]]. *)
Definition in_padded_range (p x : R) : Prop := (- p <= x <= 1 + p)%R.

(** ** Vocabulary of the statements *)

(** The input width [MLP.__init__] gives to layer [i] of the first stack. *)
Definition hidden_in (net_width skip xyz_dim i : Z) : Z :=
  if i =? 0 then xyz_dim
  else if ((i - 1) mod skip =? 0) && (i >? 1) then net_width + xyz_dim
  else net_width.

Definition hidden_layer (net_width skip xyz_dim i : Z) : Linear :=
  mkLinear (Hidden i) (hidden_in net_width skip xyz_dim i) net_width.

(** The shape contract of the torch operations of the first stack: a
    [Linear] maps a last dimension equal to its [in_features] to its
    [out_features], ReLU keeps the shape, and concatenation along the last
    axis adds the last dimensions of tensors that agree on the others. *)
Class ShapeLaws (T : TensorOps) (P : Params T) : Prop := {
  linear_shape : forall (l : Linear) (x : tensor) (lead : list Z),
    shape x = lead ++ [in_features l] ->
    exists y, linear l x = Ok y /\ shape y = lead ++ [out_features l];
  relu_shape : forall x : tensor, shape (relu x) = shape x;
  cat_shape : forall (a b : tensor) (lead : list Z) (da db : Z),
    shape a = lead ++ [da] -> shape b = lead ++ [db] ->
    exists c, cat a b = Ok c /\ shape c = lead ++ [da + db]
}.

(** A computation that neither reads nor advances the default generator:
    from any two generator states it raises the same exception, or returns
    the same value and leaves each state as it found it. *)
Definition generator_free {T : TensorOps} {A : Type} (c : M A) : Prop :=
  forall g g' : generator,
    match c g, c g' with
    | Ok (a, h), Ok (a', h') => a = a' /\ h = g /\ h' = g'
    | Raise e, Raise e' => e = e'
    | _, _ => False
    end.

(** The fields of a [RenderOutput]. *)
Definition out_weights {T : TensorOps} (e : RenderOutput) : tensor :=
  let '(_, _, _, weights, _) := e in weights.

Definition out_t_samples {T : TensorOps} (e : RenderOutput) : tensor :=
  let '(_, _, _, _, t_samples) := e in t_samples.

(** How the entries of the sequence [forward] returns arise. *)
Section Provenance.
Context {T : TensorOps}.
Variable sample_along_rays :
  tensor -> tensor -> tensor -> Z -> tensor -> tensor -> bool -> bool ->
  string -> M (tensor * (tensor * tensor)).
Variable resample_along_rays :
  tensor -> tensor -> tensor -> tensor -> tensor -> bool -> string ->
  bool -> R -> M (tensor * (tensor * tensor)).
Variable volumetric_rendering :
  tensor -> tensor -> tensor -> tensor -> bool ->
  result (tensor * tensor * tensor * tensor).
Variables (m : MipNerf) (rays : Rays) (randomized white_bkgd : bool).

(** The SampleSet of [e] is what the Ray Sampler returns on the ray batch,
    called with the generator in state [g]. *)
Definition from_sampler (g : generator) (e : RenderOutput) : Prop :=
  exists means_covs g',
    sample_along_rays (origins rays) (directions rays) (radii rays)
      (num_samples m) (near rays) (far rays) randomized (disparity m)
      (ray_shape m) g
    = Ok ((out_t_samples e, means_covs), g').

(** The SampleSet of [e] is what the Resampler returns on the SampleSet and
    the weights of [prev]. *)
Definition from_resampler (prev e : RenderOutput) : Prop :=
  exists g means_covs g',
    resample_along_rays (origins rays) (directions rays) (radii rays)
      (out_t_samples prev) (out_weights prev) randomized (ray_shape m)
      (stop_resample_grad m) (resample_padding m) g
    = Ok ((out_t_samples e, means_covs), g').

(** The first four components of [e] are what the integrator returns on
    the SampleSet of [e]. *)
Definition rendered (e : RenderOutput) : Prop :=
  exists rgb density,
    volumetric_rendering rgb density (out_t_samples e) (directions rays)
      white_bkgd
    = Ok (fst e).

End Provenance.

(** ** Inputs of the examples *)

(** A two-layer MLP whose two stacks have the same width, so that it can be
    called with and without a view direction. *)
Definition small_mlp : MLP :=
  mkMLP 4 [hidden_layer 4 4 6 0; hidden_layer 4 4 6 1]
    (mkLinear DensityLayer 4 1) (mkLinear ExtraLayer 4 4)
    [mkLinear (ViewLayer 0) (4 + 3) 4] (mkLinear ColorLayer 4 3).

(** Encoded positions of 5 rays with 7 samples each and 6 features, and the
    encoded view directions of the rays. *)
Definition small_x : sym := mkSym [5; 7; 6] (Input "x").

Definition small_view : sym := mkSym [5; 3] (Input "viewdirs").

(** The model [MipNerf(num_levels=..., density_noise=...)] builds, every
    other argument at its default. *)
Definition default_model (num_levels : Z) (density_noise : R) : MipNerf :=
  mkMipNerf num_levels 128 false "cone" false 0 16 true 4 density_noise
    (-1) (1 / 100) true
    (mkMLP 4 (map (hidden_layer 256 4 96) (range 8))
       (mkLinear DensityLayer 256 1) (mkLinear ExtraLayer 256 256)
       [mkLinear (ViewLayer 0) (256 + 27) 128] (mkLinear ColorLayer 128 3))
    Sigmoid (1 / 1000) Softplus.

(** The model [MipNerf(disable_integration=True)] builds. *)
Definition plain_model : MipNerf :=
  mkMipNerf 2 128 false "cone" true 0 16 true 4 0 (-1) (1 / 100) true
    (mlp (default_model 2 0)) Sigmoid (1 / 1000) Softplus.

(** ** Vocabulary of the further statements *)

(** The layer [MLP.__init__] builds at index [i] of the second stack. *)
Definition view_layer (net_width net_width_condition view_dim i : Z)
  : Linear :=
  mkLinear (ViewLayer i)
    (if i =? 0 then net_width + view_dim else net_width_condition)
    net_width_condition.

(** The module [MLP.__init__] returns when it returns. *)
Definition built_mlp (net_depth net_width net_depth_condition
  net_width_condition skip num_rgb_channels num_density_channels xyz_dim
  view_dim : Z) : MLP :=
  mkMLP skip
    (map (hidden_layer net_width skip xyz_dim) (range net_depth))
    (mkLinear DensityLayer net_width num_density_channels)
    (mkLinear ExtraLayer net_width net_width)
    (map (view_layer net_width net_width_condition view_dim)
       (range net_depth_condition))
    (mkLinear ColorLayer net_width_condition num_rgb_channels).

(** Two more facts of the shape contract: a [Linear] rejects an input whose
    last dimension is not its [in_features], and einops' [repeat] with the
    pattern of line 106 turns a [batch, feature] tensor into a
    [batch, sample, feature] one. *)
Class StrictShapeLaws (T : TensorOps) (P : Params T) : Prop := {
  linear_mismatch : forall (l : Linear) (x : tensor) (lead : list Z) (d : Z),
    shape x = lead ++ [d] -> d <> in_features l ->
    linear l x = Raise RuntimeError;
  repeat_shape : forall (v : tensor) (batch feature n : Z),
    shape v = [batch; feature] ->
    exists r, repeat_sample v n = Ok r /\ shape r = [batch; n; feature]
}.

(** The first [k] levels of the loop of [forward], from the initial
    state. *)
Definition run_levels {T : TensorOps} {P : Params T}
  (sample_along_rays :
     tensor -> tensor -> tensor -> Z -> tensor -> tensor -> bool -> bool ->
     string -> M (tensor * (tensor * tensor)))
  (resample_along_rays :
     tensor -> tensor -> tensor -> tensor -> tensor -> bool -> string ->
     bool -> R -> M (tensor * (tensor * tensor)))
  (integrated_pos_enc : tensor * tensor -> Z -> Z -> result tensor)
  (pos_enc : tensor -> Z -> Z -> bool -> result tensor)
  (volumetric_rendering :
     tensor -> tensor -> tensor -> tensor -> bool ->
     result (tensor * tensor * tensor * tensor))
  (m : MipNerf) (rays : Rays) (randomized white_bkgd : bool) (k : nat)
  : M loop_state :=
  for_eachM (range (Z.of_nat k))
    (level sample_along_rays resample_along_rays integrated_pos_enc pos_enc
       volumetric_rendering m rays randomized white_bkgd)
    ([], None, None).

(** [m] with another level count. *)
Definition with_num_levels (m : MipNerf) (n : Z) : MipNerf :=
  mkMipNerf n (num_samples m) (disparity m) (ray_shape m)
    (disable_integration m) (min_deg_point m) (max_deg_point m)
    (use_viewdirs m) (deg_view m) (density_noise m) (density_bias m)
    (resample_padding m) (stop_resample_grad m) (mlp m) (rgb_activation m)
    (rgb_padding m) (density_activation m).

(** [rays] with other view directions. *)
Definition with_viewdirs {T : TensorOps} (rays : Rays) (v : tensor) : Rays :=
  mkRays T (origins rays) (directions rays) v (radii rays) (near rays)
    (far rays).

(** The model [MipNerf(append_identity=False)] builds. *)
Definition no_identity_model : MipNerf :=
  mkMipNerf 2 128 false "cone" false 0 16 true 4 0 (-1) (1 / 100) true
    (built_mlp 8 256 1 128 4 3 1 96 24) Sigmoid (1 / 1000) Softplus.

(** The model [MipNerf(use_viewdirs=False, mlp_net_width_condition=256)]
    builds. *)
Definition no_view_model : MipNerf :=
  mkMipNerf 2 128 false "cone" false 0 16 false 4 0 (-1) (1 / 100) true
    (built_mlp 8 256 1 256 4 3 1 96 27) Sigmoid (1 / 1000) Softplus.

(** * Properties *)

(** ** Loops and ranges *)

Lemma bind_Ok {A B : Type} (r : result A) (k : A -> result B) (b : B) :
  bind r k = Ok b -> exists a, r = Ok a /\ k a = Ok b.
Proof.
  destruct r as [a|e]; simpl; intros H; [eauto | discriminate].
Qed.

Lemma for_each_app {I S : Type} (body : I -> S -> result S) (l1 l2 : list I)
  (s : S) :
  for_each (l1 ++ l2) body s = (s' <- for_each l1 body s ;; for_each l2 body s').
Proof.
  revert s; induction l1 as [|i l1 IH]; intros s; simpl; [reflexivity|].
  destruct (body i s); simpl; auto.
Qed.

Lemma range_nonpos (n : Z) : n <= 0 -> range n = [].
Proof.
  intros H; unfold range.
  replace (Z.to_nat n) with 0%nat by lia; reflexivity.
Qed.

Lemma range_S (k : nat) :
  range (Z.of_nat (S k)) = range (Z.of_nat k) ++ [Z.of_nat k].
Proof.
  unfold range; rewrite !Nat2Z.id, seq_S, map_app; reflexivity.
Qed.

Lemma range_pos (n : Z) : 0 < n -> exists rest, range n = 0 :: rest.
Proof.
  intros H; unfold range.
  destruct (Z.to_nat n) as [|k] eqn:E; [lia|].
  simpl; eauto.
Qed.

Lemma range_length (n : Z) : List.length (range n) = Z.to_nat n.
Proof. unfold range; rewrite length_map, length_seq; reflexivity. Qed.

Lemma enumerate_map_range {A : Type} (f : Z -> A) (n : Z) :
  enumerate (map f (range n)) = map (fun i => (i, f i)) (range n).
Proof.
  unfold enumerate, range.
  rewrite !length_map, length_seq.
  induction (seq 0 (Z.to_nat n)) as [|a l IH]; simpl; [reflexivity|].
  rewrite IH; reflexivity.
Qed.

Lemma firstn_seq_le (k start len : nat) :
  (k <= len)%nat -> firstn k (seq start len) = seq start k.
Proof.
  revert start len; induction k as [|k IH]; intros start len H.
  - reflexivity.
  - destruct len as [|len]; [lia|].
    simpl; rewrite IH by lia; reflexivity.
Qed.

Lemma firstn_map_range {A : Type} (f : Z -> A) (k : nat) (n : Z) :
  (k <= Z.to_nat n)%nat ->
  firstn k (map f (range n)) = map f (range (Z.of_nat k)).
Proof.
  intros H; unfold range.
  rewrite !firstn_map, firstn_seq_le, Nat2Z.id by assumption; reflexivity.
Qed.

Lemma nth_error_map_range {A : Type} (f : Z -> A) (n : Z) (k : nat) (a : A) :
  nth_error (map f (range n)) k = Some a ->
  (k < Z.to_nat n)%nat /\ a = f (Z.of_nat k).
Proof.
  intros H.
  assert (Hk : (k < Z.to_nat n)%nat).
  { rewrite <- (range_length n), <- (length_map f).
    apply nth_error_Some; congruence. }
  split; [exact Hk|].
  unfold range in H; rewrite map_map in H.
  rewrite nth_error_map in H.
  rewrite nth_error_seq in H.
  destruct (Nat.ltb_spec k (Z.to_nat n)); [|lia].
  simpl in H; congruence.
Qed.

(** ** Construction of the MLP *)

Lemma new_linear_Ok (w : slot) (dim_in dim_out : Z) :
  0 <= dim_in -> 0 <= dim_out ->
  new_linear w dim_in dim_out = Ok (mkLinear w dim_in dim_out).
Proof.
  intros Hi Ho; unfold new_linear.
  destruct (Z.ltb_spec dim_in 0); [lia|].
  destruct (Z.ltb_spec dim_out 0); [lia | reflexivity].
Qed.

Lemma new_linear_inv (w : slot) (dim_in dim_out : Z) (l : Linear) :
  new_linear w dim_in dim_out = Ok l -> l = mkLinear w dim_in dim_out.
Proof.
  unfold new_linear.
  destruct ((dim_in <? 0) || (dim_out <? 0)); [discriminate|].
  intros H; injection H as <-; reflexivity.
Qed.

Lemma xavier_init_Ok (l : Linear) :
  in_features l + out_features l <> 0 -> _xavier_init l = Ok tt.
Proof.
  intros H; unfold _xavier_init.
  destruct (Z.eqb_spec (in_features l + out_features l) 0);
    [contradiction | reflexivity].
Qed.

(** One application of a [Linear] of the given dimensions, when they are
    admissible. *)
Lemma build_linear (w : slot) (dim_in dim_out : Z) {A : Type}
  (k : Linear -> result A) :
  0 <= dim_in -> 0 <= dim_out -> dim_in + dim_out <> 0 ->
  (linear <- new_linear w dim_in dim_out ;;
   'tt <- _xavier_init linear ;; k linear)
  = k (mkLinear w dim_in dim_out).
Proof.
  intros Hi Ho Hs.
  rewrite new_linear_Ok by assumption; cbn [bind].
  rewrite xavier_init_Ok by exact Hs; reflexivity.
Qed.

Lemma hidden_in_bounds (net_width skip xyz_dim i : Z) :
  0 <= xyz_dim -> 0 < net_width ->
  0 <= hidden_in net_width skip xyz_dim i.
Proof.
  intros Hx Hw; unfold hidden_in.
  destruct (i =? 0); [lia|].
  destruct (((i - 1) mod skip =? 0) && (i >? 1)); lia.
Qed.

Lemma init_layer_relu (net_width skip xyz_dim i : Z) (acc : list Linear) :
  skip <> 0 -> 0 <= xyz_dim -> 0 < net_width ->
  init_layer net_width skip xyz_dim "relu" i acc
  = Ok (acc ++ [hidden_layer net_width skip xyz_dim i]).
Proof.
  intros Hs Hx Hw.
  pose proof (hidden_in_bounds net_width skip xyz_dim i Hx Hw) as Hb.
  unfold init_layer, hidden_layer, py_mod; unfold hidden_in in *.
  destruct (i =? 0); cbn [bind].
  - rewrite build_linear by lia; reflexivity.
  - destruct (skip =? 0) eqn:E; [apply Z.eqb_eq in E; contradiction|].
    cbn [bind].
    destruct (((i - 1) mod skip =? 0) && (i >? 1)); cbn [bind];
      rewrite build_linear by lia; reflexivity.
Qed.

Lemma init_layers_relu (net_width skip xyz_dim : Z) (items : list Z)
  (acc : list Linear) :
  skip <> 0 -> 0 <= xyz_dim -> 0 < net_width ->
  for_each items (init_layer net_width skip xyz_dim "relu") acc
  = Ok (acc ++ map (hidden_layer net_width skip xyz_dim) items).
Proof.
  intros Hs Hx Hw; revert acc.
  induction items as [|i items IH]; intros acc; simpl.
  - rewrite app_nil_r; reflexivity.
  - rewrite init_layer_relu by assumption; simpl.
    rewrite IH, <- app_assoc; reflexivity.
Qed.

(** What an iteration of the first loop has done when it returns. *)
Lemma init_layer_Ok (net_width skip xyz_dim : Z) (activation : string)
  (i : Z) (acc ls : list Linear) :
  init_layer net_width skip xyz_dim activation i acc = Ok ls ->
  activation = "relu"%string
  /\ ls = acc ++ [hidden_layer net_width skip xyz_dim i].
Proof.
  unfold init_layer; intros H.
  apply bind_Ok in H; destruct H as [[dim_in dim_out] [Hdims H]].
  apply bind_Ok in H; destruct H as [linear [Hlin H]].
  apply new_linear_inv in Hlin; subst linear.
  apply bind_Ok in H; destruct H as [[] [_ H]].
  destruct (activation =? "relu")%string eqn:E; [|discriminate].
  apply String.eqb_eq in E; split; [exact E|].
  injection H as <-.
  assert (Hd : dim_in = hidden_in net_width skip xyz_dim i
               /\ dim_out = net_width).
  { unfold hidden_in; destruct (i =? 0).
    - injection Hdims as <- <-; auto.
    - apply bind_Ok in Hdims; destruct Hdims as [r [Hr Hdims]].
      unfold py_mod in Hr; destruct (skip =? 0); [discriminate|].
      injection Hr as <-.
      destruct (((i - 1) mod skip =? 0) && (i >? 1));
        injection Hdims as <- <-; auto. }
  destruct Hd as [-> ->]; reflexivity.
Qed.

Lemma init_layers_Ok (net_width skip xyz_dim : Z) (activation : string)
  (items : list Z) :
  forall acc ls : list Linear,
    for_each items (init_layer net_width skip xyz_dim activation) acc = Ok ls ->
    ls = acc ++ map (hidden_layer net_width skip xyz_dim) items.
Proof.
  induction items as [|i items IH]; intros acc ls H; simpl in H.
  - injection H as <-; simpl; rewrite app_nil_r; reflexivity.
  - apply bind_Ok in H; destruct H as [l1 [H1 H]].
    apply init_layer_Ok in H1; destruct H1 as [_ ->].
    apply IH in H; rewrite H, <- app_assoc; reflexivity.
Qed.

Lemma init_layer_activation (net_width skip xyz_dim : Z) (activation : string)
  (i : Z) (acc ls : list Linear) :
  init_layer net_width skip xyz_dim activation i acc = Ok ls ->
  activation = "relu"%string.
Proof. intros H; apply init_layer_Ok in H; tauto. Qed.

Lemma init_layer_unsupported (net_width skip xyz_dim : Z)
  (activation : string) (acc : list Linear) :
  activation <> "relu"%string -> 0 <= xyz_dim -> 0 < net_width ->
  init_layer net_width skip xyz_dim activation 0 acc
  = Raise NotImplementedError.
Proof.
  intros H Hx Hw; unfold init_layer; cbn [Z.eqb bind].
  rewrite build_linear by lia.
  destruct (activation =? "relu")%string eqn:E; [|reflexivity].
  apply String.eqb_eq in E; contradiction.
Qed.

Lemma init_view_layer_unsupported (net_width net_width_condition view_dim : Z)
  (activation : string) (acc : list Linear) :
  activation <> "relu"%string ->
  0 <= view_dim -> 0 < net_width -> 0 < net_width_condition ->
  init_view_layer net_width net_width_condition view_dim activation 0 acc
  = Raise NotImplementedError.
Proof.
  intros H Hv Hw Hc; unfold init_view_layer; cbn [Z.eqb].
  rewrite build_linear by lia.
  destruct (activation =? "relu")%string eqn:E; [|reflexivity].
  apply String.eqb_eq in E; contradiction.
Qed.

(** Whatever the dimensions, an iteration of the second loop raises when
    the activation is not ['relu']. *)
Lemma init_view_layer_raises (net_width net_width_condition view_dim : Z)
  (activation : string) (i : Z) (acc : list Linear) :
  activation <> "relu"%string ->
  raises (init_view_layer net_width net_width_condition view_dim activation
            i acc) = true.
Proof.
  intros H; unfold init_view_layer.
  destruct (if i =? 0 then _ else _) as [dim_in dim_out].
  destruct (new_linear (ViewLayer i) dim_in dim_out); [|reflexivity].
  cbn [bind]; destruct (_xavier_init a) as [[]|]; [|reflexivity].
  cbn [bind].
  destruct (activation =? "relu")%string eqn:E; [|reflexivity].
  apply String.eqb_eq in E; contradiction.
Qed.

Lemma MLP_init_layers (net_depth net_width net_depth_condition
  net_width_condition skip num_rgb_channels num_density_channels : Z)
  (activation : string) (xyz_dim view_dim : Z) (m : MLP) :
  skip <> 0 ->
  MLP_init net_depth net_width net_depth_condition net_width_condition skip
    num_rgb_channels num_density_channels activation xyz_dim view_dim = Ok m ->
  layers m = map (hidden_layer net_width skip xyz_dim) (range net_depth)
  /\ skip_index m = skip.
Proof.
  intros Hs H; unfold MLP_init in H.
  apply bind_Ok in H; destruct H as [ls [Hls H]].
  apply bind_Ok in H; destruct H as [density [_ H]].
  apply bind_Ok in H; destruct H as [[] [_ H]].
  apply bind_Ok in H; destruct H as [extra [_ H]].
  apply bind_Ok in H; destruct H as [[] [_ H]].
  apply bind_Ok in H; destruct H as [vs [_ H]].
  apply bind_Ok in H; destruct H as [color [_ H]].
  injection H as <-; simpl; split; [|reflexivity].
  apply init_layers_Ok in Hls; exact Hls.
Qed.

Lemma MLP_init_unsupported (net_depth net_width net_depth_condition
  net_width_condition skip num_rgb_channels num_density_channels : Z)
  (activation : string) (xyz_dim view_dim : Z) :
  activation <> "relu"%string ->
  0 < net_depth \/ 0 < net_depth_condition ->
  raises (MLP_init net_depth net_width net_depth_condition
            net_width_condition skip num_rgb_channels num_density_channels
            activation xyz_dim view_dim) = true.
Proof.
  intros Ha Hd.
  destruct (MLP_init net_depth net_width net_depth_condition
              net_width_condition skip num_rgb_channels num_density_channels
              activation xyz_dim view_dim) as [m|e] eqn:H; [|reflexivity].
  exfalso; unfold MLP_init in H.
  apply bind_Ok in H; destruct H as [ls [Hls H]].
  apply bind_Ok in H; destruct H as [density [_ H]].
  apply bind_Ok in H; destruct H as [[] [_ H]].
  apply bind_Ok in H; destruct H as [extra [_ H]].
  apply bind_Ok in H; destruct H as [[] [_ H]].
  apply bind_Ok in H; destruct H as [vs [Hvs _]].
  destruct (Z_le_gt_dec net_depth 0) as [Hle|Hgt].
  - destruct (range_pos net_depth_condition) as [rest Hr]; [lia|].
    rewrite Hr in Hvs; simpl in Hvs.
    apply bind_Ok in Hvs; destruct Hvs as [l0 [H0 _]].
    pose proof (init_view_layer_raises net_width net_width_condition
                  view_dim activation 0 [] Ha) as Hr0.
    rewrite H0 in Hr0; discriminate.
  - destruct (range_pos net_depth) as [rest Hr]; [lia|].
    rewrite Hr in Hls; simpl in Hls.
    apply bind_Ok in Hls; destruct Hls as [l0 [H0 _]].
    apply init_layer_activation in H0; contradiction.
Qed.

(** ** The first stack of the MLP *)

Section FirstStack.
Context {T : TensorOps} {P : Params T} {L : ShapeLaws T P}.
Variables (net_width skip xyz_dim : Z) (lead : list Z) (inputs : tensor).
Hypothesis skip_nonzero : skip <> 0.
Hypothesis inputs_shape : shape inputs = lead ++ [xyz_dim].

Let layer_of (i : Z) : Linear := hidden_layer net_width skip xyz_dim i.
Let width_of (i : Z) : Z := hidden_in net_width skip xyz_dim i.

Lemma hidden_in_succ (k : Z) :
  0 <= k ->
  width_of (k + 1)
  = if (k mod skip =? 0) && (k >? 0) then net_width + xyz_dim
    else net_width.
Proof.
  intros Hk; unfold width_of, hidden_in.
  replace (k + 1 - 1) with k by lia.
  destruct (k + 1 =? 0) eqn:E; [apply Z.eqb_eq in E; lia|].
  replace (k + 1 >? 1) with (k >? 0); [reflexivity|].
  rewrite !Z.gtb_ltb.
  destruct (Z.ltb_spec 0 k), (Z.ltb_spec 1 (k + 1)); auto; lia.
Qed.

(** One iteration of the loop on a tensor of the width layer [k] was built
    for. *)
Lemma stack_step_shape (k : Z) (xk : tensor) :
  0 <= k ->
  shape xk = lead ++ [width_of k] ->
  exists y x',
    layer_call (layer_of k) xk = Ok y
    /\ shape y = lead ++ [net_width]
    /\ stack_step skip inputs (k, layer_of k) xk = Ok x'
    /\ shape x' = lead ++ [width_of (k + 1)]
    /\ ((k mod skip =? 0) && (k >? 0) = true -> cat y inputs = Ok x').
Proof.
  intros Hk Hx.
  destruct (linear_shape (layer_of k) xk lead Hx) as [y0 [Hy0 Sy0]].
  simpl in Sy0.
  exists (relu y0).
  assert (Hcall : layer_call (layer_of k) xk = Ok (relu y0)).
  { unfold layer_call; rewrite Hy0; reflexivity. }
  assert (Srelu : shape (relu y0) = lead ++ [net_width]).
  { rewrite relu_shape; exact Sy0. }
  rewrite hidden_in_succ by assumption.
  unfold stack_step; rewrite Hcall; simpl.
  unfold py_mod.
  destruct (skip =? 0) eqn:E; [apply Z.eqb_eq in E; contradiction|].
  simpl.
  destruct ((k mod skip =? 0) && (k >? 0)) eqn:Hskip.
  - destruct (cat_shape (relu y0) inputs lead net_width xyz_dim Srelu
                inputs_shape) as [c [Hc Sc]].
    exists c; repeat split; auto.
  - exists (relu y0); repeat split; auto; discriminate.
Qed.

(** The tensor that reaches layer [k] has the width layer [k] was built
    for. *)
Lemma run_layers_prefix (k : nat) :
  exists xk,
    run_layers skip inputs
      (map (fun i => (i, layer_of i)) (range (Z.of_nat k))) inputs = Ok xk
    /\ shape xk = lead ++ [width_of (Z.of_nat k)].
Proof.
  induction k as [|k [xk [Hrun Hshape]]].
  - exists inputs; split; [reflexivity | exact inputs_shape].
  - destruct (stack_step_shape (Z.of_nat k) xk) as
      [y [x' [_ [_ [Hstep [Sx' _]]]]]]; [lia | exact Hshape |].
    exists x'; split.
    + unfold run_layers in *.
      rewrite range_S, map_app, for_each_app, Hrun.
      cbn [bind map for_each]; rewrite Hstep; reflexivity.
    + rewrite Nat2Z.inj_succ; unfold Z.succ; exact Sx'.
Qed.

End FirstStack.

(** The symbolic tensors obey the shape contract. *)

Lemma split_last_app (lead : list Z) (d : Z) :
  split_last (lead ++ [d]) = Some (lead, d).
Proof.
  induction lead as [|a lead IH]; simpl; [reflexivity|].
  rewrite IH; destruct (lead ++ [d]) eqn:E; [|reflexivity].
  destruct lead; discriminate.
Qed.

Lemma shape_eqb_refl (a : list Z) : shape_eqb a a = true.
Proof.
  induction a as [|x a IH]; simpl; [reflexivity|].
  rewrite Z.eqb_refl, IH; reflexivity.
Qed.

#[export] Instance SymLaws : ShapeLaws SymOps SymParams.
Proof.
  constructor.
  - intros l x lead H; simpl in *.
    unfold sym_linear; rewrite H, split_last_app, Z.eqb_refl.
    eexists; split; reflexivity.
  - intros x; reflexivity.
  - intros a b lead da db Ha Hb; simpl in *.
    unfold sym_cat; rewrite Ha, Hb, !split_last_app, shape_eqb_refl.
    eexists; split; reflexivity.
Qed.

(** C8.  In the first stack of the MLP, the output of every layer whose
    index is a positive multiple of [skip_index] is concatenated with the
    saved encoded input, the layer that follows such a layer was built with
    [net_width + xyz_dim] inputs, and on an input whose last dimension is
    [xyz_dim] the tensor reaching each layer has exactly the width the layer
    was built for, so that the whole loop runs without a shape error.  This
    holds for every runtime that obeys the shape contract of [Linear], ReLU
    and concatenation, and every [skip_index] other than zero. *)
Theorem first_stack_widths_match
  {T : TensorOps} {P : Params T} (L : ShapeLaws T P)
  (net_depth net_width net_depth_condition net_width_condition skip
   num_rgb_channels num_density_channels : Z) (activation : string)
  (xyz_dim view_dim : Z) (m : MLP) (x : tensor) (lead : list Z) :
  skip <> 0 ->
  MLP_init net_depth net_width net_depth_condition net_width_condition skip
    num_rgb_channels num_density_channels activation xyz_dim view_dim
  = Ok m ->
  shape x = lead ++ [xyz_dim] ->
  (forall (i : nat) (l : Linear),
     (0 < i)%nat -> Z.of_nat i mod skip_index m = 0 ->
     nth_error (layers m) (S i) = Some l ->
     in_features l = net_width + xyz_dim)
  /\ (forall (k : nat) (l : Linear),
        nth_error (layers m) k = Some l ->
        exists xk,
          run_layers (skip_index m) x (firstn k (enumerate (layers m))) x
          = Ok xk
          /\ shape xk = lead ++ [in_features l])
  /\ (forall (k : nat) (l : Linear),
        (0 < k)%nat -> Z.of_nat k mod skip_index m = 0 ->
        nth_error (layers m) k = Some l ->
        exists xk y c,
          run_layers (skip_index m) x (firstn k (enumerate (layers m))) x
          = Ok xk
          /\ layer_call l xk = Ok y
          /\ cat y x = Ok c
          /\ run_layers (skip_index m) x
               (firstn (S k) (enumerate (layers m))) x = Ok c)
  /\ (exists y,
        run_layers (skip_index m) x (enumerate (layers m)) x = Ok y).
Proof.
  intros Hs Hinit Hx.
  destruct (MLP_init_layers _ _ _ _ _ _ _ _ _ _ _ Hs Hinit) as [Hl Hk].
  rewrite Hk, Hl, enumerate_map_range.
  set (hl := hidden_layer net_width skip xyz_dim).
  assert (Hprefix : forall k : nat, (k <= Z.to_nat net_depth)%nat ->
    exists xk,
      run_layers skip x
        (firstn k (map (fun i => (i, hl i)) (range net_depth))) x = Ok xk
      /\ shape xk = lead ++ [hidden_in net_width skip xyz_dim (Z.of_nat k)]).
  { intros k Hle; rewrite firstn_map_range by assumption.
    apply (run_layers_prefix (L := L)); assumption. }
  repeat split.
  - intros i l Hi Hmod Hnth.
    apply nth_error_map_range in Hnth; destruct Hnth as [_ ->].
    rewrite Nat2Z.inj_succ; unfold Z.succ.
    unfold hl, hidden_layer; cbn [in_features]; unfold hidden_in.
    replace (Z.of_nat i + 1 - 1) with (Z.of_nat i) by lia.
    rewrite Hmod.
    destruct (Z.of_nat i + 1 =? 0) eqn:E; [apply Z.eqb_eq in E; lia|].
    destruct (Z.gtb_spec (Z.of_nat i + 1) 1); [reflexivity | lia].
  - intros k l Hnth.
    apply nth_error_map_range in Hnth; destruct Hnth as [Hlt ->].
    apply Hprefix; lia.
  - intros k l Hpos Hmod Hnth.
    apply nth_error_map_range in Hnth; destruct Hnth as [Hlt ->].
    destruct (Hprefix k) as [xk [Hrun Hshape]]; [lia|].
    destruct (stack_step_shape (L := L) net_width skip xyz_dim lead x Hs Hx
                (Z.of_nat k) xk) as [y [x' [Hcall [_ [Hstep [_ Hcat]]]]]];
      [lia | exact Hshape |].
    exists xk, y, x'; repeat split; auto.
    + apply Hcat; rewrite Hmod; simpl.
      destruct (Z.gtb_spec (Z.of_nat k) 0); [reflexivity | lia].
    + rewrite firstn_map_range by lia.
      rewrite firstn_map_range in Hrun by lia.
      unfold run_layers in *.
      rewrite range_S, map_app, for_each_app, Hrun.
      subst hl; cbn [bind map for_each]; rewrite Hstep; reflexivity.
  - destruct (Hprefix (Z.to_nat net_depth)) as [xk [Hrun _]]; [lia|].
    exists xk.
    rewrite <- Hrun, <- (range_length net_depth), <- (length_map
      (fun i => (i, hl i))), firstn_all; reflexivity.
Qed.

(** A four-layer stack with a skip connection every second layer, on a
    batch of 5 rays with 7 samples and 6 encoded features. *)
Lemma first_stack_widths_match_witness :
  exists y,
    run_layers 2 (mkSym [5; 7; 6] (Input "x"))
      (enumerate
         [hidden_layer 8 2 6 0; hidden_layer 8 2 6 1; hidden_layer 8 2 6 2;
          hidden_layer 8 2 6 3])
      (mkSym [5; 7; 6] (Input "x")) = Ok y.
Proof.
  exact (proj2 (proj2 (proj2
    (first_stack_widths_match SymLaws 4 8 1 8 2 3 1 "relu" 6 3
       (mkMLP 2
          [hidden_layer 8 2 6 0; hidden_layer 8 2 6 1; hidden_layer 8 2 6 2;
           hidden_layer 8 2 6 3]
          (mkLinear DensityLayer 8 1) (mkLinear ExtraLayer 8 8)
          [mkLinear (ViewLayer 0) 11 8] (mkLinear ColorLayer 8 3))
       (mkSym [5; 7; 6] (Input "x")) [5; 7]
       ltac:(lia) eq_refl eq_refl)))).
Defined.

(** The heads are not part of the first stack.  When the last layer of the
    stack is itself a skip layer ([net_depth = 5] with [skip_index = 4]),
    its concatenated output is what reaches [density_layer], which was built
    for [net_width] inputs, and the call raises. *)
Lemma density_head_after_final_skip :
  exists m : MLP,
    MLP_init 5 8 1 8 4 3 1 "relu" 6 3 = Ok m
    /\ raises (run_layers (T := SymOps) (skip_index m) small_x
                 (enumerate (layers m)) small_x) = false
    /\ MLP_forward (T := SymOps) m small_x (Some small_view)
       = Raise RuntimeError.
Proof.
  eexists; split; [reflexivity|].
  split; reflexivity.
Qed.

(** ** Configuration errors *)

Section Construction.
Variables (num_samples num_levels : Z) (resample_padding : R)
  (stop_resample_grad use_viewdirs disparity : bool)
  (min_deg_point max_deg_point deg_view : Z)
  (density_noise density_bias rgb_padding : R)
  (disable_integration append_identity : bool)
  (mlp_net_depth mlp_net_width mlp_net_depth_condition
   mlp_net_width_condition mlp_skip_index mlp_num_rgb_channels
   mlp_num_density_channels : Z).

(** The constructor as a function of the four selectors. *)
Let construct (ray_shape density_activation rgb_activation
  mlp_net_activation : string) : result MipNerf :=
  MipNerf_init num_samples num_levels resample_padding stop_resample_grad
    use_viewdirs disparity ray_shape min_deg_point max_deg_point deg_view
    density_activation density_noise density_bias rgb_activation
    rgb_padding disable_integration append_identity mlp_net_depth
    mlp_net_width mlp_net_depth_condition mlp_net_width_condition
    mlp_skip_index mlp_num_rgb_channels mlp_num_density_channels
    mlp_net_activation.

(** C2, as the code has it.  A colour activation other than ['sigmoid'] or
    a density activation other than ['softplus'] makes the constructor
    raise; so does a hidden activation other than ['relu'] whenever the MLP
    has a layer to build in either stack.  The ray shape is stored as it
    comes: whether the constructor raises does not depend on it, and a
    successful construction keeps the string it was given. *)
Theorem construction_errors
  (shape_sel density_sel rgb_sel hidden_sel : string) :
  (rgb_sel <> "sigmoid"%string ->
   raises (construct shape_sel density_sel rgb_sel
             hidden_sel) = true)
  /\ (density_sel <> "softplus"%string ->
      raises (construct shape_sel density_sel rgb_sel
                hidden_sel) = true)
  /\ (hidden_sel <> "relu"%string ->
      0 < mlp_net_depth \/ 0 < mlp_net_depth_condition ->
      raises (construct shape_sel density_sel rgb_sel
                hidden_sel) = true)
  /\ (forall other_shape : string,
        raises (construct other_shape density_sel rgb_sel
                  hidden_sel)
        = raises (construct shape_sel density_sel rgb_sel
                    hidden_sel))
  /\ (forall m : MipNerf,
        construct shape_sel density_sel rgb_sel
          hidden_sel = Ok m ->
        ray_shape m = shape_sel).
Proof.
  unfold construct, MipNerf_init.
  repeat split.
  - intros H.
    destruct (MLP_init _ _ _ _ _ _ _ _ _ _); simpl; [|reflexivity].
    destruct (rgb_sel =? "sigmoid")%string eqn:E; [|reflexivity].
    apply String.eqb_eq in E; contradiction.
  - intros H.
    destruct (MLP_init _ _ _ _ _ _ _ _ _ _); simpl; [|reflexivity].
    destruct (rgb_sel =? "sigmoid")%string; simpl; [|reflexivity].
    destruct (density_sel =? "softplus")%string eqn:E;
      [|reflexivity].
    apply String.eqb_eq in E; contradiction.
  - intros H Hd.
    pose proof (MLP_init_unsupported mlp_net_depth mlp_net_width
      mlp_net_depth_condition mlp_net_width_condition mlp_skip_index
      mlp_num_rgb_channels mlp_num_density_channels hidden_sel
      ((max_deg_point - min_deg_point) * 3 * 2)
      (if append_identity then deg_view * 3 * 2 + 3 else deg_view * 3 * 2)
      H Hd) as Hr.
    destruct (MLP_init _ _ _ _ _ _ _ _ _ _); [discriminate | reflexivity].
  - intros other_shape.
    destruct (MLP_init _ _ _ _ _ _ _ _ _ _); simpl; [|reflexivity].
    destruct (rgb_sel =? "sigmoid")%string; simpl; [|reflexivity].
    destruct (density_sel =? "softplus")%string; reflexivity.
  - intros m H.
    apply bind_Ok in H; destruct H as [net [_ H]].
    apply bind_Ok in H; destruct H as [rgb_act [_ H]].
    apply bind_Ok in H; destruct H as [density_act [_ H]].
    injection H as <-; reflexivity.
Qed.

End Construction.

(** Every model the constructor returns carries the sigmoid as colour
    activation and the softplus as density activation. *)
Lemma MipNerf_init_activations (num_samples num_levels : Z)
  (resample_padding : R) (stop_resample_grad use_viewdirs disparity : bool)
  (shape_sel : string) (min_deg_point max_deg_point deg_view : Z)
  (density_sel : string) (density_noise density_bias : R) (rgb_sel : string)
  (rgb_padding : R) (disable_integration append_identity : bool)
  (mlp_net_depth mlp_net_width mlp_net_depth_condition
   mlp_net_width_condition mlp_skip_index mlp_num_rgb_channels
   mlp_num_density_channels : Z) (hidden_sel : string) (m : MipNerf) :
  MipNerf_init num_samples num_levels resample_padding stop_resample_grad
    use_viewdirs disparity shape_sel min_deg_point max_deg_point deg_view
    density_sel density_noise density_bias rgb_sel rgb_padding
    disable_integration append_identity mlp_net_depth mlp_net_width
    mlp_net_depth_condition mlp_net_width_condition mlp_skip_index
    mlp_num_rgb_channels mlp_num_density_channels hidden_sel = Ok m ->
  rgb_activation m = Sigmoid /\ density_activation m = Softplus.
Proof.
  unfold MipNerf_init; intros H.
  apply bind_Ok in H; destruct H as [net [_ H]].
  apply bind_Ok in H; destruct H as [rgb_act [Hrgb H]].
  apply bind_Ok in H; destruct H as [density_act [Hdensity H]].
  injection H as <-; simpl.
  destruct (rgb_sel =? "sigmoid")%string; [|discriminate].
  destruct (density_sel =? "softplus")%string; [|discriminate].
  split; congruence.
Qed.

Lemma small_mlp_built : MLP_init 2 4 1 4 4 3 1 "relu" 6 3 = Ok small_mlp.
Proof. reflexivity. Qed.

Lemma plain_model_built :
  MipNerf_init 128 2 (1 / 100) true true false "cone" 0 16 4 "softplus" 0
    (-1) "sigmoid" (1 / 1000) true true 8 256 1 128 4 3 1 "relu"
  = Ok plain_model.
Proof. reflexivity. Qed.

(** Three unsupported activations, each on the defaults of the signature. *)
Lemma construction_errors_witness :
  raises (MipNerf_init 128 2 (1 / 100) true true false "cone" 0 16 4
            "softplus" 0 (-1) "tanh" (1 / 1000) false true 8 256 1 128 4 3 1
            "relu") = true
  /\ raises (MipNerf_init 128 2 (1 / 100) true true false "cone" 0 16 4
               "relu" 0 (-1) "sigmoid" (1 / 1000) false true 8 256 1 128 4 3
               1 "relu") = true
  /\ raises (MipNerf_init 128 2 (1 / 100) true true false "cone" 0 16 4
               "softplus" 0 (-1) "sigmoid" (1 / 1000) false true 8 256 1 128
               4 3 1 "gelu") = true.
Proof.
  split; [|split].
  - apply (proj1 (construction_errors 128 2 (1 / 100) true true false 0 16 4
                    0 (-1) (1 / 1000) false true 8 256 1 128 4 3 1
                    "cone" "softplus" "tanh" "relu")).
    discriminate.
  - apply (proj1 (proj2 (construction_errors 128 2 (1 / 100) true true false
                           0 16 4 0 (-1) (1 / 1000) false true 8 256 1 128 4
                           3 1 "cone" "relu" "sigmoid" "relu"))).
    discriminate.
  - apply (proj1 (proj2 (proj2 (construction_errors 128 2 (1 / 100) true true
                                  false 0 16 4 0 (-1) (1 / 1000) false true 8
                                  256 1 128 4 3 1 "cone" "softplus" "sigmoid"
                                  "gelu")))).
    + discriminate.
    + left; lia.
Defined.

(** C2 fails for the ray shape: the constructor accepts a shape that is
    neither ['cone'] nor ['cylinder'] and returns a model that carries it. *)
Lemma unsupported_ray_shape_is_constructed :
  exists m : MipNerf,
    MipNerf_default 2 "sphere" 0 true = Ok m
    /\ ray_shape m = "sphere"%string
    /\ ray_shape m <> "cone"%string
    /\ ray_shape m <> "cylinder"%string.
Proof.
  eexists; split; [reflexivity|].
  simpl; repeat split; discriminate.
Qed.

(** C2 also leaves out the MLP without layers: no hidden activation is
    looked at when both stacks are empty. *)
Lemma unsupported_activation_without_layers :
  raises (MipNerf_init 128 2 (1 / 100) true true false "cone" 0 16 4
            "softplus" 0 (-1) "sigmoid" (1 / 1000) false true 0 256 0 128 4 3
            1 "gelu") = false.
Proof. reflexivity. Qed.

(** ** The density head *)

(** C10.  The raw density [MLP.forward] returns does not depend on the view
    direction it is given, [None] included: whenever two calls on the same
    position features return, they return the same raw density, which is the
    density head applied to the output of the first stack. *)
Theorem raw_density_ignores_view_direction
  {T : TensorOps} {P : Params T} (m : MLP) (x : tensor)
  (view1 view2 : option tensor) (rgb1 density1 rgb2 density2 : tensor) :
  MLP_forward m x view1 = Ok (rgb1, density1) ->
  MLP_forward m x view2 = Ok (rgb2, density2) ->
  density1 = density2
  /\ exists h,
       run_layers (skip_index m) x (enumerate (layers m)) x = Ok h
       /\ linear (density_layer m) h = Ok density1.
Proof.
  unfold MLP_forward; intros H1 H2.
  apply bind_Ok in H1; destruct H1 as [n1 [_ H1]].
  apply bind_Ok in H1; destruct H1 as [h1 [Hh1 H1]].
  apply bind_Ok in H1; destruct H1 as [d1 [Hd1 H1]].
  apply bind_Ok in H1; destruct H1 as [y1 [_ H1]].
  apply bind_Ok in H1; destruct H1 as [c1 [_ H1]].
  apply bind_Ok in H2; destruct H2 as [n2 [_ H2]].
  apply bind_Ok in H2; destruct H2 as [h2 [Hh2 H2]].
  apply bind_Ok in H2; destruct H2 as [d2 [Hd2 H2]].
  apply bind_Ok in H2; destruct H2 as [y2 [_ H2]].
  apply bind_Ok in H2; destruct H2 as [c2 [_ H2]].
  injection H1 as _ <-; injection H2 as _ <-.
  split; [congruence | eauto].
Qed.

(** The small MLP called without and with a view direction. *)
Lemma raw_density_ignores_view_direction_witness :
  exists rgb1 rgb2 density1 density2 : sym,
    MLP_forward (T := SymOps) small_mlp small_x None = Ok (rgb1, density1)
    /\ MLP_forward (T := SymOps) small_mlp small_x (Some small_view)
       = Ok (rgb2, density2)
    /\ density1 = density2.
Proof.
  do 4 eexists.
  split; [reflexivity|].
  split; [reflexivity|].
  refine (proj1 (raw_density_ignores_view_direction (T := SymOps) small_mlp
                   small_x None (Some small_view) _ _ _ _ _ _));
    reflexivity.
Defined.

(** ** The level orchestrator *)

Section OrchestratorProperties.
Context {T : TensorOps} {P : Params T}.
Variable sample_along_rays :
  tensor -> tensor -> tensor -> Z -> tensor -> tensor -> bool -> bool ->
  string -> M (tensor * (tensor * tensor)).
Variable resample_along_rays :
  tensor -> tensor -> tensor -> tensor -> tensor -> bool -> string ->
  bool -> R -> M (tensor * (tensor * tensor)).
Variable integrated_pos_enc : tensor * tensor -> Z -> Z -> result tensor.
Variable pos_enc : tensor -> Z -> Z -> bool -> result tensor.
Variable volumetric_rendering :
  tensor -> tensor -> tensor -> tensor -> bool ->
  result (tensor * tensor * tensor * tensor).
Variables (m : MipNerf) (rays : Rays) (randomized white_bkgd : bool).

Let step := level sample_along_rays resample_along_rays integrated_pos_enc
              pos_enc volumetric_rendering m rays randomized white_bkgd.

Lemma mbind_Ok {A B : Type} (c : M A) (k : A -> M B) (g g' : generator)
  (b : B) :
  mbind c k g = Ok (b, g') ->
  exists a g1, c g = Ok (a, g1) /\ k a g1 = Ok (b, g').
Proof.
  unfold mbind; destruct (c g) as [[a g1]|e]; intros H;
    [eauto | discriminate].
Qed.

Lemma pure_call_Ok {A : Type} (r : result A) (g g' : generator) (a : A) :
  pure_call r g = Ok (a, g') -> r = Ok a /\ g' = g.
Proof.
  unfold pure_call; destruct r; intros H; [|discriminate].
  injection H as -> ->; auto.
Qed.

(** What a level that returns has done. *)
Lemma level_Ok (i_level : Z) (ret : list RenderOutput)
  (t_prev w_prev : option tensor) (g g' : generator) (st' : loop_state) :
  step i_level (ret, t_prev, w_prev) g = Ok (st', g') ->
  exists t_samples means_covs g1 samples_enc raw_rgb raw_density
         noisy_density comp_rgb distance acc weights,
    sample_level sample_along_rays resample_along_rays m rays randomized
      i_level t_prev w_prev g = Ok ((t_samples, means_covs), g1)
    /\ encode_samples integrated_pos_enc m means_covs = Ok samples_enc
    /\ predict pos_enc m rays samples_enc = Ok (raw_rgb, raw_density)
    /\ add_density_noise m randomized raw_density g1
       = Ok (noisy_density, g')
    /\ volumetric_rendering (rgb_of_raw m raw_rgb)
         (density_of_raw m noisy_density) t_samples (directions rays)
         white_bkgd
       = Ok (comp_rgb, distance, acc, weights)
    /\ st' = (ret ++ [(comp_rgb, distance, acc, weights, t_samples)],
              Some t_samples, Some weights).
Proof.
  unfold step, level; intros H.
  apply mbind_Ok in H; destruct H as [[t_samples means_covs] [g1 [Hs H]]].
  apply mbind_Ok in H; destruct H as [samples_enc [g2 [He H]]].
  apply pure_call_Ok in He; destruct He as [He ->].
  apply mbind_Ok in H; destruct H as [[raw_rgb raw_density] [g3 [Hp H]]].
  apply pure_call_Ok in Hp; destruct Hp as [Hp ->].
  apply mbind_Ok in H; destruct H as [noisy_density [g4 [Hn H]]].
  apply mbind_Ok in H;
    destruct H as [[[[comp_rgb distance] acc] weights] [g5 [Hv H]]].
  apply pure_call_Ok in Hv; destruct Hv as [Hv ->].
  unfold mret in H; injection H as <- <-.
  exists t_samples, means_covs, g1, samples_enc, raw_rgb, raw_density,
    noisy_density, comp_rgb, distance, acc, weights.
  repeat split; assumption.
Qed.

(** The invariant of the loop after [k] levels, the first of which found
    the generator in state [g0]. *)
Let invariant (g0 : generator) (k : nat) (st : loop_state) : Prop :=
  let '(ret, t_prev, w_prev) := st in
  List.length ret = k
  /\ (forall e, nth_error ret 0 = Some e ->
        from_sampler sample_along_rays m rays randomized g0 e)
  /\ (forall j e e', nth_error ret j = Some e ->
        nth_error ret (S j) = Some e' ->
        from_resampler resample_along_rays m rays randomized e e')
  /\ (forall e, In e ret -> rendered volumetric_rendering rays white_bkgd e)
  /\ (forall e, nth_error ret (Nat.pred k) = Some e ->
        t_prev = Some (out_t_samples e) /\ w_prev = Some (out_weights e)).

Lemma level_invariant (g0 g g' : generator) (k : nat)
  (st st' : loop_state) :
  invariant g0 k st -> (k = 0%nat -> g = g0) ->
  step (Z.of_nat k) st g = Ok (st', g') ->
  invariant g0 (S k) st'.
Proof.
  destruct st as [[ret t_prev] w_prev].
  intros [Hlen [Hfirst [Hchain [Hrend Hlast]]]] Hg H.
  apply level_Ok in H.
  destruct H as [t_samples [means_covs [g1 [samples_enc [raw_rgb
    [raw_density [noisy_density [comp_rgb [distance [acc [weights
    [Hs [_ [_ [_ [Hv ->]]]]]]]]]]]]]]]].
  set (e_new := (comp_rgb, distance, acc, weights, t_samples)).
  unfold invariant; split; [|split; [|split; [|split]]].
  - rewrite length_app; simpl; lia.
  - intros e He.
    destruct ret as [|e0 ret0]; [|apply Hfirst; exact He].
    simpl in He; injection He as <-.
    simpl in Hlen; subst k.
    pose proof (Hg eq_refl) as Hgg; subst g.
    unfold sample_level in Hs; simpl in Hs.
    exists means_covs, g1; exact Hs.
  - intros j e e' He He'.
    destruct (Nat.lt_ge_cases (S j) (List.length ret)) as [Hlt|Hge].
    + rewrite nth_error_app1 in He, He' by lia.
      eapply Hchain; eassumption.
    + assert (Hj : S j = List.length ret).
      { assert (S j < List.length (ret ++ [e_new]))%nat
          by (apply nth_error_Some; congruence).
        rewrite length_app in H; simpl in H; lia. }
      rewrite nth_error_app1 in He by lia.
      rewrite nth_error_app2, Hj, Nat.sub_diag in He' by lia.
      simpl in He'; injection He' as <-.
      assert (Hk : Nat.pred k = j) by lia.
      rewrite <- Hk in He; destruct (Hlast e He) as [-> ->].
      unfold sample_level in Hs.
      destruct (Z.eqb_spec (Z.of_nat k) 0); [lia|].
      exists g, means_covs, g1; exact Hs.
  - intros e He; apply in_app_or in He; destruct He as [He|[<-|[]]].
    + apply Hrend; exact He.
    + exists (rgb_of_raw m raw_rgb), (density_of_raw m noisy_density).
      exact Hv.
  - simpl; rewrite <- Hlen, nth_error_app2, Nat.sub_diag by lia.
    simpl; intros e He; injection He as <-; auto.
Qed.

Lemma loop_invariant (g0 : generator) (n : nat) :
  forall (k : nat) (st st' : loop_state) (g g' : generator),
    invariant g0 k st -> (k = 0%nat -> g = g0) ->
    for_eachM (map Z.of_nat (seq k n)) step st g = Ok (st', g') ->
    invariant g0 (k + n) st'.
Proof.
  induction n as [|n IH]; intros k st st' g g' Hinv Hg H.
  - simpl in H; unfold mret in H; injection H as <- <-.
    rewrite Nat.add_0_r; exact Hinv.
  - simpl in H; apply mbind_Ok in H; destruct H as [st1 [g1 [H1 H]]].
    replace (k + S n)%nat with (S k + n)%nat by lia.
    eapply IH; [| |exact H].
    + eapply level_invariant; eassumption.
    + discriminate.
Qed.

(** What [forward] has computed when it returns. *)
Lemma forward_Ok (g g' : generator) (ret : list RenderOutput) :
  MipNerf_forward sample_along_rays resample_along_rays integrated_pos_enc
    pos_enc volumetric_rendering m rays randomized white_bkgd g
  = Ok (ret, g') ->
  exists t_last w_last, invariant g (Z.to_nat (num_levels m))
                          (ret, t_last, w_last).
Proof.
  unfold MipNerf_forward; intros H.
  apply mbind_Ok in H; destruct H as [[[ret' t_last] w_last] [g1 [H H']]].
  unfold mret in H'; injection H' as -> ->.
  exists t_last, w_last.
  apply (loop_invariant g (Z.to_nat (num_levels m)) 0 ([], None, None)
           (ret, t_last, w_last) g g'); auto.
  unfold invariant; split; [reflexivity|].
  split; [intros e He; discriminate|].
  split; [intros j e e' He; destruct j; discriminate|].
  split; [intros e []|intros e He; discriminate].
Qed.

(** C1.  When [forward] returns, it returns one [RenderOutput] per level,
    in the order of the levels: as many entries as [num_levels] (none for
    a level count below zero); each entry is the tuple of the integrator's
    colour, distance, opacity and weights with the SampleSet they were
    computed on; the SampleSet of entry 0 is the one the Ray Sampler
    returned, called first on the ray batch; and the SampleSet of every
    entry [k + 1] is the one the Resampler returned on the SampleSet and
    the weights of entry [k]. *)
Theorem forward_returns_one_output_per_level
  (g g' : generator) (ret : list RenderOutput) :
  MipNerf_forward sample_along_rays resample_along_rays integrated_pos_enc
    pos_enc volumetric_rendering m rays randomized white_bkgd g
  = Ok (ret, g') ->
  List.length ret = Z.to_nat (num_levels m)
  /\ (forall e, nth_error ret 0 = Some e ->
        from_sampler sample_along_rays m rays randomized g e)
  /\ (forall k e e', nth_error ret k = Some e ->
        nth_error ret (S k) = Some e' ->
        from_resampler resample_along_rays m rays randomized e e')
  /\ (forall e, In e ret ->
        rendered volumetric_rendering rays white_bkgd e).
Proof.
  intros H; apply forward_Ok in H.
  destruct H as [t_last [w_last [Hlen [Hfirst [Hchain [Hrend _]]]]]].
  auto.
Qed.

(** C9.  With a single level the Resampler is never called: replacing it
    by any other routine, one that always raises included, changes nothing
    of what [forward] does; a call that returns returns exactly one entry,
    whose SampleSet is the one the Ray Sampler returned; and the call does
    return, with that one entry, as soon as the five steps of level 0
    return (the Ray Sampler, the encoding, the MLP, the density noise and
    the integrator), whatever the Resampler is. *)
Theorem single_level_never_resamples
  (other_resampler :
     tensor -> tensor -> tensor -> tensor -> tensor -> bool -> string ->
     bool -> R -> M (tensor * (tensor * tensor)))
  (g : generator) :
  num_levels m = 1 ->
  MipNerf_forward sample_along_rays other_resampler integrated_pos_enc
    pos_enc volumetric_rendering m rays randomized white_bkgd g
  = MipNerf_forward sample_along_rays resample_along_rays
      integrated_pos_enc pos_enc volumetric_rendering m rays randomized
      white_bkgd g
  /\ (forall ret g',
        MipNerf_forward sample_along_rays resample_along_rays
          integrated_pos_enc pos_enc volumetric_rendering m rays
          randomized white_bkgd g = Ok (ret, g') ->
        exists e, ret = [e]
          /\ from_sampler sample_along_rays m rays randomized g e)
  /\ (forall (t_samples : tensor) (means_covs : tensor * tensor)
             (g1 : generator) (samples_enc raw_rgb raw_density : tensor)
             (noisy_density : tensor) (g2 : generator)
             (comp_rgb distance acc weights : tensor),
        sample_along_rays (origins rays) (directions rays) (radii rays)
          (num_samples m) (near rays) (far rays) randomized (disparity m)
          (ray_shape m) g = Ok ((t_samples, means_covs), g1) ->
        encode_samples integrated_pos_enc m means_covs = Ok samples_enc ->
        predict pos_enc m rays samples_enc = Ok (raw_rgb, raw_density) ->
        add_density_noise m randomized raw_density g1
        = Ok (noisy_density, g2) ->
        volumetric_rendering (rgb_of_raw m raw_rgb)
          (density_of_raw m noisy_density) t_samples (directions rays)
          white_bkgd
        = Ok (comp_rgb, distance, acc, weights) ->
        MipNerf_forward sample_along_rays other_resampler
          integrated_pos_enc pos_enc volumetric_rendering m rays
          randomized white_bkgd g
        = Ok ([(comp_rgb, distance, acc, weights, t_samples)], g2)).
Proof.
  intros HL; split; [|split].
  - unfold MipNerf_forward; rewrite HL; reflexivity.
  - intros ret g' H; apply forward_Ok in H.
    destruct H as [t_last [w_last [Hlen [Hfirst _]]]].
    rewrite HL in Hlen.
    destruct ret as [|e [|e' ret]]; try discriminate.
    exists e; split; [reflexivity|].
    apply Hfirst; reflexivity.
  - intros t_samples means_covs g1 samples_enc raw_rgb raw_density
      noisy_density g2 comp_rgb distance acc weights Hs He Hp Hn Hv.
    unfold MipNerf_forward; rewrite HL; change (range 1) with [0].
    cbn [for_eachM]; unfold level, sample_level; cbn [Z.eqb].
    unfold mbind, pure_call, mret.
    rewrite Hs, He, Hp, Hn, Hv; reflexivity.
Qed.

Lemma Rgtb_true (x y : R) : (x > y)%R -> Rgtb x y = true.
Proof. intros H; unfold Rgtb; destruct (Rgt_dec x y); tauto. Qed.

Lemma Rgtb_false (x y : R) : ~ (x > y)%R -> Rgtb x y = false.
Proof. intros H; unfold Rgtb; destruct (Rgt_dec x y); tauto. Qed.

Lemma add_density_noise_randomized (raw_density : tensor)
  (g : generator) :
  (density_noise m > 0)%R ->
  add_density_noise m true raw_density g
  = Ok (add raw_density
          (mul_scalar (fst (randn (shape raw_density) g))
             (density_noise m)),
        snd (randn (shape raw_density) g)).
Proof.
  intros H; unfold add_density_noise.
  rewrite Rgtb_true by assumption; simpl.
  destruct (randn (shape raw_density) g); reflexivity.
Qed.

(** C6.  In a level that returns, the raw density of the network is
    changed before the activation exactly when the call is randomized and
    the noise scale is positive: it is then the raw density plus the scale
    times a standard normal draw of the same shape, taken from the default
    generator; otherwise it is the raw density itself and the generator is
    left alone.  The density handed to the integrator is the softplus of
    that density plus the bias. *)
Theorem density_noise_only_when_randomized
  (i_level : Z) (ret : list RenderOutput) (t_prev w_prev : option tensor)
  (g g' : generator) (st' : loop_state) :
  density_activation m = Softplus ->
  step i_level (ret, t_prev, w_prev) g = Ok (st', g') ->
  exists t_samples means_covs g1 samples_enc raw_rgb raw_density
         noisy_density comp_rgb distance acc weights,
    sample_level sample_along_rays resample_along_rays m rays randomized
      i_level t_prev w_prev g = Ok ((t_samples, means_covs), g1)
    /\ encode_samples integrated_pos_enc m means_covs = Ok samples_enc
    /\ predict pos_enc m rays samples_enc = Ok (raw_rgb, raw_density)
    /\ (randomized = true /\ (density_noise m > 0)%R ->
        noisy_density
        = add raw_density
            (mul_scalar (fst (randn (shape raw_density) g1))
               (density_noise m))
        /\ g' = snd (randn (shape raw_density) g1))
    /\ (~ (randomized = true /\ (density_noise m > 0)%R) ->
        noisy_density = raw_density /\ g' = g1)
    /\ volumetric_rendering (rgb_of_raw m raw_rgb)
         (softplus (add_scalar noisy_density (density_bias m))) t_samples
         (directions rays) white_bkgd
       = Ok (comp_rgb, distance, acc, weights).
Proof.
  intros Hact H; apply level_Ok in H.
  destruct H as [t_samples [means_covs [g1 [samples_enc [raw_rgb
    [raw_density [noisy_density [comp_rgb [distance [acc [weights
    [Hs [He [Hp [Hn [Hv _]]]]]]]]]]]]]]]].
  exists t_samples, means_covs, g1, samples_enc, raw_rgb, raw_density,
    noisy_density, comp_rgb, distance, acc, weights.
  split; [exact Hs|]. split; [exact He|]. split; [exact Hp|].
  unfold density_of_raw in Hv; rewrite Hact in Hv; simpl in Hv.
  unfold add_density_noise in Hn.
  split; [|split; [|exact Hv]].
  - intros [-> Hpos]; rewrite Rgtb_true in Hn by assumption; simpl in Hn.
    destruct (randn (shape raw_density) g1) as [noise g2].
    injection Hn as <- <-; auto.
  - intros Hnot.
    destruct randomized; simpl in Hn.
    + rewrite Rgtb_false in Hn by tauto.
      unfold mret in Hn; injection Hn as <- <-; auto.
    + unfold mret in Hn; injection Hn as <- <-; auto.
Qed.

(** Computations that leave the generator alone compose. *)
Lemma generator_free_ret {A : Type} (a : A) : generator_free (mret a).
Proof. intros g1 g2; unfold mret; auto. Qed.

Lemma generator_free_pure {A : Type} (r : result A) :
  generator_free (pure_call r).
Proof. intros g1 g2; unfold pure_call; destruct r; auto. Qed.

Lemma generator_free_bind {A B : Type} (c : M A) (k : A -> M B) :
  generator_free c -> (forall a, generator_free (k a)) ->
  generator_free (mbind c k).
Proof.
  intros Hc Hk g1 g2; unfold mbind.
  specialize (Hc g1 g2).
  destruct (c g1) as [[a h]|e], (c g2) as [[a' h']|e']; try contradiction.
  - destruct Hc as [<- [-> ->]]; apply Hk.
  - exact Hc.
Qed.

Lemma generator_free_loop {I S : Type} (body : I -> S -> M S)
  (items : list I) :
  (forall i s, generator_free (body i s)) ->
  forall s, generator_free (for_eachM items body s).
Proof.
  intros Hb; induction items as [|i items IH]; intros s; simpl.
  - apply generator_free_ret.
  - apply generator_free_bind; [apply Hb | exact IH].
Qed.

(** C3, as the code has it.  [forward] has no seed argument: what it
    returns is a function of its inputs and of the state in which it finds
    the default generator, so two calls on the same inputs from the same
    generator state agree on their outputs and on the state they leave.
    A call that is not randomized, with samplers that leave the generator
    alone when they are not randomized, leaves it alone as well, and its
    outputs are then the same from every generator state. *)
Theorem forward_draws_from_default_generator :
  (forall g1 g2 : generator,
     g1 = g2 ->
     MipNerf_forward sample_along_rays resample_along_rays
       integrated_pos_enc pos_enc volumetric_rendering m rays randomized
       white_bkgd g1
     = MipNerf_forward sample_along_rays resample_along_rays
         integrated_pos_enc pos_enc volumetric_rendering m rays randomized
         white_bkgd g2)
  /\ (randomized = false ->
      (forall o d r n nr fr dsp shp,
         generator_free (sample_along_rays o d r n nr fr false dsp shp)) ->
      (forall o d r t w shp stop pad,
         generator_free (resample_along_rays o d r t w false shp stop pad)) ->
      generator_free
        (MipNerf_forward sample_along_rays resample_along_rays
           integrated_pos_enc pos_enc volumetric_rendering m rays
           randomized white_bkgd)).
Proof.
  split; [intros g1 g2 ->; reflexivity|].
  intros -> Hsample Hresample.
  unfold MipNerf_forward.
  apply generator_free_bind;
    [|intros [[ret t_last] w_last]; apply generator_free_ret].
  apply generator_free_loop; intros i [[ret t_prev] w_prev].
  unfold level.
  apply generator_free_bind.
  { unfold sample_level; destruct (i =? 0); [apply Hsample|].
    destruct t_prev; [destruct w_prev|];
      [apply Hresample | apply generator_free_pure
       | apply generator_free_pure]. }
  intros [t_samples means_covs].
  apply generator_free_bind; [apply generator_free_pure|].
  intros samples_enc.
  apply generator_free_bind; [apply generator_free_pure|].
  intros [raw_rgb raw_density].
  apply generator_free_bind; [apply generator_free_ret|].
  intros noisy_density.
  apply generator_free_bind; [apply generator_free_pure|].
  intros [[[comp_rgb distance] acc] weights].
  apply generator_free_ret.
Qed.

End OrchestratorProperties.

(** ** The orchestrator on symbolic tensors *)

Lemma MipNerf_default_model (num_levels : Z) (density_noise : R) :
  MipNerf_default num_levels "cone" density_noise true
  = Ok (default_model num_levels density_noise).
Proof. reflexivity. Qed.

(** Two levels on 1024 rays, not randomized. *)
Lemma forward_returns_one_output_per_level_witness :
  exists ret g',
    sym_forward (default_model 2 0) (sym_rays 1024) false false 0%nat
    = Ok (ret, g')
    /\ List.length ret = 2%nat.
Proof.
  do 2 eexists.
  split; [reflexivity|].
  refine (proj1 (forward_returns_one_output_per_level (T := SymOps)
                   sym_sample_along_rays sym_resample_along_rays
                   sym_integrated_pos_enc sym_pos_enc
                   sym_volumetric_rendering (default_model 2 0)
                   (sym_rays 1024) false false 0%nat _ _ _)).
  reflexivity.
Defined.

(** One level, and a Resampler that always raises: the call returns one
    entry. *)
Lemma single_level_never_resamples_witness :
  exists (e : RenderOutput (T := SymOps)) (g' : nat),
    MipNerf_forward sym_sample_along_rays
      (fun _ _ _ _ _ _ _ _ _ _ => Raise RuntimeError)
      sym_integrated_pos_enc sym_pos_enc sym_volumetric_rendering
      (default_model 1 0) (sym_rays 1024) false false 0%nat
    = Ok ([e], g').
Proof.
  do 2 eexists.
  eapply (proj2 (proj2 (single_level_never_resamples (T := SymOps)
                          sym_sample_along_rays sym_resample_along_rays
                          sym_integrated_pos_enc sym_pos_enc
                          sym_volumetric_rendering (default_model 1 0)
                          (sym_rays 1024) false false
                          (fun _ _ _ _ _ _ _ _ _ _ => Raise RuntimeError)
                          0%nat eq_refl)));
    reflexivity.
Defined.

(** The first level of a randomized call with noise scale one half. *)
Lemma density_noise_only_when_randomized_witness :
  exists st' g',
    level sym_sample_along_rays sym_resample_along_rays
      sym_integrated_pos_enc sym_pos_enc sym_volumetric_rendering
      (default_model 1 (1 / 2)) (sym_rays 4) true false 0 ([], None, None)
      0%nat = Ok (st', g')
    /\ exists (raw_density noisy_density : sym) (g1 : nat),
         noisy_density
         = add (TensorOps := SymOps) raw_density
             (mul_scalar (TensorOps := SymOps)
                (fst (randn (TensorOps := SymOps)
                        (shape (TensorOps := SymOps) raw_density) g1))
                (1 / 2)).
Proof.
  assert (Hpos : (1 / 2 > 0)%R) by lra.
  destruct (level (T := SymOps) sym_sample_along_rays sym_resample_along_rays
              sym_integrated_pos_enc sym_pos_enc sym_volumetric_rendering
              (default_model 1 (1 / 2)) (sym_rays 4) true false 0
              ([], None, None) 0%nat) as [[st' g']|e] eqn:H.
  - exists st', g'; split; [reflexivity|].
    destruct (density_noise_only_when_randomized (T := SymOps)
      sym_sample_along_rays sym_resample_along_rays sym_integrated_pos_enc
      sym_pos_enc sym_volumetric_rendering (default_model 1 (1 / 2))
      (sym_rays 4) true false 0 [] None None 0%nat g' st' eq_refl H)
      as [t_samples [means_covs [g1 [samples_enc [raw_rgb [raw_density
         [noisy_density [comp_rgb [distance [acc [weights
         [_ [_ [_ [Hnoise _]]]]]]]]]]]]]]].
    exists raw_density, noisy_density, g1.
    exact (proj1 (Hnoise (conj eq_refl Hpos))).
  - exfalso; revert H; vm_compute.
    destruct (Rgt_dec _ _) as [_|n]; [discriminate | intros _; apply n; lra].
Defined.

Ltac case_shape :=
  repeat match goal with
         | |- context [match sym_shape ?t with _ => _ end] =>
             destruct (sym_shape t)
         | |- context [match ?x with _ => _ end] => is_var x; destruct x
         end.

Lemma sym_sample_along_rays_not_randomized (origins directions radii : sym)
  (n : Z) (near far : sym) (disparity : bool) (ray_shape : string) :
  generator_free (T := SymOps)
    (sym_sample_along_rays origins directions radii n near far false
       disparity ray_shape).
Proof.
  intros g g'; unfold sym_sample_along_rays, sampler_args.
  case_shape; simpl; auto.
Qed.

Lemma sym_resample_along_rays_not_randomized (origins directions radii
  t_samples weights : sym) (ray_shape : string) (stop : bool) (pad : R) :
  generator_free (T := SymOps)
    (sym_resample_along_rays origins directions radii t_samples weights
       false ray_shape stop pad).
Proof.
  intros g g'; unfold sym_resample_along_rays, sampler_args.
  case_shape; simpl; auto.
Qed.

(** A call that is not randomized, on the model with noise scale one. *)
Lemma forward_draws_from_default_generator_witness :
  generator_free (T := SymOps)
    (sym_forward (default_model 2 1) (sym_rays 2) false false).
Proof.
  apply (proj2 (forward_draws_from_default_generator (T := SymOps)
                  sym_sample_along_rays sym_resample_along_rays
                  sym_integrated_pos_enc sym_pos_enc
                  sym_volumetric_rendering (default_model 2 1) (sym_rays 2)
                  false false) eq_refl).
  - intros; apply sym_sample_along_rays_not_randomized.
  - intros; apply sym_resample_along_rays_not_randomized.
Defined.

(** C3 fails on the code.  [forward] takes the rays and two flags and no
    seed: with noise scale one, two randomized calls in a row on the same
    rays return different outputs, the second one having found the default
    generator where the first one left it. *)
Lemma same_inputs_different_outputs :
  exists out1 g1 out2 g2,
    sym_forward (default_model 1 1) (sym_rays 2) true false 0%nat
    = Ok (out1, g1)
    /\ sym_forward (default_model 1 1) (sym_rays 2) true false g1
       = Ok (out2, g2)
    /\ out1 <> out2.
Proof.
  do 4 eexists.
  split.
  { vm_compute.
    destruct (Rgt_dec _ _) as [_|n]; [reflexivity | exfalso; apply n; lra]. }
  split.
  { vm_compute.
    destruct (Rgt_dec _ _) as [_|n]; [reflexivity | exfalso; apply n; lra]. }
  discriminate.
Qed.

(** ** The view encoding *)

(** C4 at its failing input.  The constructor called with
    [append_identity=False] builds the first view layer for a view encoding
    of [2 * 3 * deg_view = 24] features; [forward] nevertheless asks
    [pos_enc] to append the raw direction, the encoding it passes on has 27
    features, and the network raises a shape error at that layer, in every
    call. *)
Theorem append_identity_false_forward_raises :
  exists m : MipNerf,
    MipNerf_default 2 "cone" 0 false = Ok m
    /\ map in_features (view_layers (mlp m)) = [256 + 2 * 3 * 4]
    /\ (forall samples_enc : sym,
          sym_shape samples_enc = [1024; 128; 96] ->
          predict sym_pos_enc m (sym_rays 1024) samples_enc
          = Raise RuntimeError)
    /\ (forall (randomized white_bkgd : bool) (g : nat),
          sym_forward m (sym_rays 1024) randomized white_bkgd g
          = Raise RuntimeError).
Proof.
  eexists; split; [reflexivity|].
  split; [reflexivity|].
  split.
  - intros [sh t] H; simpl in H; subst sh; reflexivity.
  - intros [|] white_bkgd g; reflexivity.
Qed.

(** With the default [append_identity=True] the same call returns. *)
Lemma append_identity_true_forward_returns :
  raises (sym_forward (default_model 2 0) (sym_rays 1024) false false 0%nat)
  = false.
Proof. reflexivity. Qed.

(** ** Colours on real tensors *)

Lemma sigmoidR_bounds (x : R) : (0 < sigmoidR x < 1)%R.
Proof.
  unfold sigmoidR.
  pose proof (exp_pos (- x)) as He.
  assert (Hd : (0 < 1 + exp (- x))%R) by lra.
  split.
  - apply Rdiv_lt_0_compat; lra.
  - apply (Rmult_lt_reg_r (1 + exp (- x))); [exact Hd|].
    unfold Rdiv; rewrite Rmult_assoc, Rinv_l by lra; lra.
Qed.

Lemma padded_sigmoid_in_range (p x : R) :
  (0 <= p)%R -> in_padded_range p (sigmoidR x * (1 + 2 * p) - p).
Proof.
  intros Hp; pose proof (sigmoidR_bounds x) as [H0 H1].
  unfold in_padded_range; split; nra.
Qed.

Lemma Rsum_nonneg (l : list R) :
  Forall (fun w => 0 <= w)%R l -> (0 <= Rsum l)%R.
Proof.
  induction 1 as [|w l Hw _ IH]; simpl; lra.
Qed.

Lemma Forall_zip_with {A B C : Type} (f : A -> B -> C) (PA : A -> Prop)
  (PB : B -> Prop) (PC : C -> Prop) (a : list A) (b : list B) :
  (forall x y, PA x -> PB y -> PC (f x y)) ->
  Forall PA a -> Forall PB b -> Forall PC (zip_with f a b).
Proof.
  intros Hf Ha; revert b; induction Ha as [|x a Hx _ IH]; intros b Hb.
  - constructor.
  - destruct Hb as [|y b Hy Hb]; simpl; constructor; auto.
Qed.

(** The composite colour lies in the padded range scaled by the mass of the
    weights that entered it. *)
Lemma composite_rgb_scaled (p : R) (weights : list R) :
  Forall (fun w => 0 <= w)%R weights ->
  forall rgb : rows,
    Forall (Forall (in_padded_range p)) rgb ->
    exists mass : R,
      (0 <= mass <= Rsum weights)%R
      /\ Forall (fun x => - p * mass <= x <= (1 + p) * mass)%R
           (composite_rgb weights rgb).
Proof.
  induction 1 as [|w ws Hw Hws IH]; intros rgb Hrgb.
  - exists 0%R; simpl; split; [lra|].
    repeat constructor; lra.
  - destruct Hrgb as [|c cs Hc Hcs].
    + exists 0%R; simpl; split.
      * pose proof (Rsum_nonneg ws Hws); lra.
      * repeat constructor; lra.
    + destruct (IH cs Hcs) as [mass [[Hm0 Hm1] Hbound]].
      exists (w + mass)%R; simpl; split; [lra|].
      apply (Forall_zip_with Rplus
               (fun x => - p * w <= x <= (1 + p) * w)%R
               (fun x => - p * mass <= x <= (1 + p) * mass)%R).
      * intros x y [Hx0 Hx1] [Hy0 Hy1]; split; lra.
      * apply Forall_map.
        eapply Forall_impl; [|exact Hc].
        intros x [Hx0 Hx1]; simpl; split; nra.
      * exact Hbound.
Qed.

(** C5.  On real tensors the colour handed to the integrator is, entry by
    entry, [sigmoid(raw) * (1 + 2 * rgb_padding) - rgb_padding]; with a
    padding that is not negative every entry lies in
    [[-rgb_padding, 1 + rgb_padding]], and so does every component of the
    composite colour of a ray, for weights that are not negative and sum to
    at most one, before the background is added. *)
Theorem rgb_in_padded_range (m : MipNerf) (raw_rgb : rows)
  (weights : list R) :
  rgb_activation m = Sigmoid ->
  (0 <= rgb_padding m)%R ->
  rgb_of_raw (T := RealOps) m raw_rgb
  = map (map (fun x =>
              (sigmoidR x * (1 + 2 * rgb_padding m) - rgb_padding m)%R))
      raw_rgb
  /\ Forall (Forall (in_padded_range (rgb_padding m)))
       (rgb_of_raw (T := RealOps) m raw_rgb)
  /\ (Forall (fun w => 0 <= w)%R weights ->
      (Rsum weights <= 1)%R ->
      Forall (in_padded_range (rgb_padding m))
        (composite_rgb weights (rgb_of_raw (T := RealOps) m raw_rgb))).
Proof.
  intros Hact Hp.
  assert (Heq : rgb_of_raw (T := RealOps) m raw_rgb
    = map (map (fun x =>
                (sigmoidR x * (1 + 2 * rgb_padding m) - rgb_padding m)%R))
        raw_rgb).
  { unfold rgb_of_raw; rewrite Hact; simpl; unfold rows_map.
    rewrite !map_map; apply map_ext; intros row.
    rewrite !map_map; reflexivity. }
  assert (Hrange : Forall (Forall (in_padded_range (rgb_padding m)))
                     (rgb_of_raw (T := RealOps) m raw_rgb)).
  { rewrite Heq; apply Forall_map, Forall_forall; intros row _.
    apply Forall_map, Forall_forall; intros x _.
    apply padded_sigmoid_in_range; exact Hp. }
  split; [exact Heq|]. split; [exact Hrange|].
  intros Hw Hsum.
  destruct (composite_rgb_scaled (rgb_padding m) weights Hw _ Hrange)
    as [mass [[Hm0 Hm1] Hbound]].
  eapply Forall_impl; [|exact Hbound].
  intros x [Hx0 Hx1]; unfold in_padded_range; simpl in *; split; nra.
Qed.

(** Two samples of one ray, with weights one half and one quarter. *)
Lemma rgb_in_padded_range_witness :
  Forall (in_padded_range (1 / 1000))
    (composite_rgb [(1 / 2)%R; (1 / 4)%R]
       (rgb_of_raw (T := RealOps) (default_model 2 0)
          [[0; 1; -1]; [3; 0; 2]]%R)).
Proof.
  apply (proj2 (proj2 (rgb_in_padded_range (default_model 2 0)
                         [[0; 1; -1]; [3; 0; 2]]%R [(1 / 2)%R; (1 / 4)%R]
                         eq_refl ltac:(simpl; lra)))).
  - repeat constructor; lra.
  - unfold Rsum; simpl; lra.
Defined.

(** ** The encoding with integration disabled *)

Lemma attenuation_at_zero (j : Z) (s : R) :
  (s * exp (- (1 / 2) * powerRZ 4 j * 0) = s)%R.
Proof. rewrite Rmult_0_r, exp_0, Rmult_1_r; reflexivity. Qed.

Lemma ipe_sample_zero_variance (min_deg max_deg : Z) (mean var : list R) :
  List.length mean = List.length var ->
  ipe_sample min_deg max_deg mean (map (fun _ => 0%R) var)
  = pos_enc_sample min_deg max_deg false mean.
Proof.
  intros Hlen; unfold ipe_sample, pos_enc_sample.
  rewrite app_nil_r; apply flat_map_ext; intros j.
  revert var Hlen; induction mean as [|x mean IH]; intros var Hlen.
  - reflexivity.
  - destruct var as [|v var]; [discriminate|].
    simpl; rewrite !attenuation_at_zero, IH by (simpl in Hlen; lia).
    reflexivity.
Qed.

(** C7.  With [disable_integration] set, [forward] replaces the covariances
    by zeros before it calls the encoder, and the integrated encoding it
    then gets is, value for value, the plain positional encoding of the
    means over the frequencies [[min_deg_point, max_deg_point)], without the
    raw components appended. *)
Theorem disable_integration_gives_plain_encoding (m : MipNerf)
  (means covs : rows) :
  disable_integration m = true ->
  Forall2 (fun mu v => List.length mu = List.length v) means covs ->
  encode_samples (T := RealOps) real_integrated_pos_enc m (means, covs)
  = real_integrated_pos_enc (means, map (map (fun _ => 0%R)) covs)
      (min_deg_point m) (max_deg_point m)
  /\ encode_samples (T := RealOps) real_integrated_pos_enc m (means, covs)
     = real_pos_enc means (min_deg_point m) (max_deg_point m) false.
Proof.
  intros Hflag Hshape.
  unfold encode_samples; rewrite Hflag; simpl.
  split; [reflexivity|].
  unfold real_integrated_pos_enc, real_pos_enc, rows_map; simpl.
  f_equal.
  induction Hshape as [|mu v means covs Hlen _ IH]; simpl; [reflexivity|].
  rewrite ipe_sample_zero_variance, IH by assumption; reflexivity.
Qed.

(** Two sample Gaussians encoded by the model built with
    [disable_integration=True]. *)
Lemma disable_integration_gives_plain_encoding_witness :
  encode_samples (T := RealOps) real_integrated_pos_enc plain_model
    ([[1; 2; 3]; [0; -1; 4]]%R, [[5; 6; 7]; [8; 9; 10]]%R)
  = real_pos_enc [[1; 2; 3]; [0; -1; 4]]%R 0 16 false.
Proof.
  apply (proj2 (disable_integration_gives_plain_encoding plain_model
                  [[1; 2; 3]; [0; -1; 4]]%R [[5; 6; 7]; [8; 9; 10]]%R
                  eq_refl ltac:(repeat constructor))).
Defined.

(** ** The orchestrator returns *)

(** On symbolic tensors the default model, whatever its level count and its
    noise scale, returns on a batch of 1024 rays for both settings of both
    flags: no shape error stands in the way of the properties above. *)

Lemma sym_level_returns (L : Z) (noise : R) (randomized white_bkgd : bool)
  (i : Z) (ret : list (RenderOutput (T := SymOps)))
  (t_prev w_prev : option sym) (g : nat) :
  i = 0
  \/ (exists tt tw, t_prev = Some (mkSym [1024; 129] tt)
                    /\ w_prev = Some (mkSym [1024; 128] tw)) ->
  exists e tt' tw' g',
    level sym_sample_along_rays sym_resample_along_rays
      sym_integrated_pos_enc sym_pos_enc sym_volumetric_rendering
      (default_model L noise) (sym_rays 1024) randomized white_bkgd i
      (ret, t_prev, w_prev) g
    = Ok ((ret ++ [e], Some (mkSym [1024; 129] tt'),
           Some (mkSym [1024; 128] tw')), g').
Proof.
  intros H; unfold level, sample_level.
  destruct (Z.eqb_spec i 0) as [->|Hi].
  - destruct randomized; vm_compute.
    + destruct (Rgt_dec _ _); do 4 eexists; reflexivity.
    + do 4 eexists; reflexivity.
  - destruct H as [H|[tt [tw [-> ->]]]]; [contradiction|].
    destruct randomized; vm_compute.
    + destruct (Rgt_dec _ _); do 4 eexists; reflexivity.
    + do 4 eexists; reflexivity.
Qed.

Lemma sym_loop_returns (L : Z) (noise : R) (randomized white_bkgd : bool)
  (n : nat) :
  forall (k : nat) (ret : list (RenderOutput (T := SymOps)))
         (t_prev w_prev : option sym) (g : nat),
    k = 0%nat
    \/ (exists tt tw, t_prev = Some (mkSym [1024; 129] tt)
                      /\ w_prev = Some (mkSym [1024; 128] tw)) ->
    exists ret' t_last w_last g',
      for_eachM (T := SymOps) (map Z.of_nat (seq k n))
        (level sym_sample_along_rays sym_resample_along_rays
           sym_integrated_pos_enc sym_pos_enc sym_volumetric_rendering
           (default_model L noise) (sym_rays 1024) randomized white_bkgd)
        (ret, t_prev, w_prev) g
      = Ok ((ret', t_last, w_last), g')
      /\ List.length ret' = (List.length ret + n)%nat.
Proof.
  induction n as [|n IH]; intros k ret t_prev w_prev g H.
  - exists ret, t_prev, w_prev, g; split; [reflexivity | lia].
  - destruct (sym_level_returns L noise randomized white_bkgd (Z.of_nat k)
                ret t_prev w_prev g) as [e [tt' [tw' [g1 Hlevel]]]].
    { destruct H as [->|H]; [left; reflexivity | right; exact H]. }
    destruct (IH (S k) (ret ++ [e]) (Some (mkSym [1024; 129] tt'))
                (Some (mkSym [1024; 128] tw')) g1)
      as [ret' [t_last [w_last [g' [Hloop Hlen]]]]].
    { right; eauto. }
    exists ret', t_last, w_last, g'; split.
    + cbn [seq map for_eachM]; unfold mbind at 1.
      match goal with
      | |- match ?c with _ => _ end = _ =>
          replace c with (Ok (A := loop_state (T := SymOps) * nat)
                            (ret ++ [e], Some (mkSym [1024; 129] tt'),
                             Some (mkSym [1024; 128] tw'), g1))
            by (symmetry; exact Hlevel)
      end.
      exact Hloop.
    + rewrite Hlen, length_app; simpl; lia.
Qed.

(** [forward] on the default model returns one entry per level. *)
Lemma sym_forward_returns (L : Z) (noise : R) (randomized white_bkgd : bool)
  (g : nat) :
  exists ret g',
    sym_forward (default_model L noise) (sym_rays 1024) randomized
      white_bkgd g = Ok (ret, g')
    /\ List.length ret = Z.to_nat L.
Proof.
  destruct (sym_loop_returns L noise randomized white_bkgd (Z.to_nat L) 0 []
              None None g) as [ret [t_last [w_last [g' [Hloop Hlen]]]]];
    [left; reflexivity|].
  exists ret, g'; split; [|exact Hlen].
  unfold sym_forward, MipNerf_forward, range.
  change (num_levels (default_model L noise)) with L.
  unfold mbind at 1.
  match goal with
  | |- match ?c with _ => _ end = _ =>
      replace c with (Ok (A := loop_state (T := SymOps) * nat)
                        (ret, t_last, w_last, g'))
        by (symmetry; exact Hloop)
  end.
  reflexivity.
Qed.


(** * Further properties *)

(** ** What the constructors return *)

Lemma range_ge2 (n : Z) : 1 < n -> exists rest, range n = 0 :: 1 :: rest.
Proof.
  intros H; unfold range.
  destruct (Z.to_nat n) as [|[|k]] eqn:E; [lia | lia |].
  simpl; eauto.
Qed.

Lemma init_view_layers_relu (net_width net_width_condition view_dim : Z)
  (items : list Z) (acc : list Linear) :
  0 <= view_dim -> 0 < net_width -> 0 < net_width_condition ->
  for_each items
    (init_view_layer net_width net_width_condition view_dim "relu") acc
  = Ok (acc ++ map (view_layer net_width net_width_condition view_dim) items).
Proof.
  intros Hv Hw Hc.
  revert acc; induction items as [|i items IH]; intros acc; simpl.
  - rewrite app_nil_r; reflexivity.
  - unfold init_view_layer at 1, view_layer at 1.
    destruct (i =? 0); rewrite build_linear by lia; simpl;
      rewrite IH, <- app_assoc; reflexivity.
Qed.

(** Layer 0 of the first stack takes no modulo. *)
Lemma init_layer_first (net_width skip xyz_dim : Z) (acc : list Linear) :
  0 <= xyz_dim -> 0 < net_width ->
  init_layer net_width skip xyz_dim "relu" 0 acc
  = Ok (acc ++ [hidden_layer net_width skip xyz_dim 0]).
Proof.
  intros Hx Hw; unfold init_layer, hidden_layer, hidden_in.
  cbn [Z.eqb bind].
  rewrite build_linear by lia; reflexivity.
Qed.

(** Every later layer takes it, before its [Linear] is built. *)
Lemma init_layer_zero_skip (net_width xyz_dim : Z) (activation : string)
  (i : Z) (acc : list Linear) :
  i <> 0 ->
  init_layer net_width 0 xyz_dim activation i acc = Raise ZeroDivisionError.
Proof.
  intros Hi; unfold init_layer, py_mod.
  destruct (Z.eqb_spec i 0); [contradiction | reflexivity].
Qed.

(** [MLP.__init__] after the first loop (lines 53-73). *)
Lemma MLP_init_heads (net_width net_depth_condition net_width_condition skip
  num_rgb_channels num_density_channels view_dim : Z) (ls : list Linear) :
  0 < net_width -> 0 < net_width_condition ->
  0 <= num_rgb_channels -> 0 <= num_density_channels -> 0 <= view_dim ->
  (density <- new_linear DensityLayer net_width num_density_channels ;;
   'tt <- _xavier_init density ;;
   extra <- new_linear ExtraLayer net_width net_width ;;
   'tt <- _xavier_init extra ;;
   vs <- for_each (range net_depth_condition)
           (init_view_layer net_width net_width_condition view_dim "relu")
           [] ;;
   color <- new_linear ColorLayer net_width_condition num_rgb_channels ;;
   Ok (mkMLP skip ls density extra vs color))
  = Ok (mkMLP skip ls
          (mkLinear DensityLayer net_width num_density_channels)
          (mkLinear ExtraLayer net_width net_width)
          (map (view_layer net_width net_width_condition view_dim)
             (range net_depth_condition))
          (mkLinear ColorLayer net_width_condition num_rgb_channels)).
Proof.
  intros Hw Hc Hrgb Hden Hv.
  rewrite build_linear by lia.
  rewrite build_linear by lia.
  rewrite init_view_layers_relu by assumption; cbn [bind app].
  rewrite new_linear_Ok by lia; reflexivity.
Qed.

(** X1.  [MLP.__init__] in closed form, for widths that [torch.nn.Linear]
    accepts and [_xavier_init] can scale: positive [net_width] and
    [net_width_condition], and no negative feature or channel count.  An
    activation other than ['relu'] raises [NotImplementedError] as soon as
    either stack has a layer to build; otherwise a zero [skip_index] raises
    [ZeroDivisionError] when the first stack has two layers or more (the
    modulo of line 39 is first taken at [i = 1]); otherwise the constructor
    returns, and the module has one layer per index of each stack with the
    widths of lines 36-44 and 59-64, and heads of [net_width] and
    [net_width_condition] inputs. *)
Theorem MLP_init_closed_form (net_depth net_width net_depth_condition
  net_width_condition skip num_rgb_channels num_density_channels : Z)
  (activation : string) (xyz_dim view_dim : Z) :
  0 < net_width -> 0 < net_width_condition ->
  0 <= num_rgb_channels -> 0 <= num_density_channels ->
  0 <= xyz_dim -> 0 <= view_dim ->
  MLP_init net_depth net_width net_depth_condition net_width_condition skip
    num_rgb_channels num_density_channels activation xyz_dim view_dim
  = if negb (activation =? "relu")%string
       && ((0 <? net_depth) || (0 <? net_depth_condition))
    then Raise NotImplementedError
    else if (skip =? 0) && (1 <? net_depth)
    then Raise ZeroDivisionError
    else Ok (built_mlp net_depth net_width net_depth_condition
               net_width_condition skip num_rgb_channels
               num_density_channels xyz_dim view_dim).
Proof.
  intros Hw Hc Hrgb Hden Hx Hv.
  unfold MLP_init, built_mlp.
  destruct (activation =? "relu")%string eqn:Ea; simpl negb; cbn [andb].
  - apply String.eqb_eq in Ea; subst activation.
    destruct (Z.eqb_spec skip 0) as [->|Hs]; cbn [andb].
    + destruct (Z.ltb_spec 1 net_depth) as [Hd|Hd].
      * destruct (range_ge2 net_depth Hd) as [rest ->].
        cbn [for_each].
        rewrite init_layer_first by assumption; cbn [bind].
        rewrite init_layer_zero_skip by lia; reflexivity.
      * destruct (Z_le_gt_dec net_depth 0) as [H0|H0].
        -- rewrite (range_nonpos net_depth) by assumption.
           cbn [for_each bind map].
           apply MLP_init_heads; assumption.
        -- assert (net_depth = 1) as -> by lia.
           change (range 1) with [0]; cbn [for_each].
           rewrite init_layer_first by assumption; cbn [bind app map].
           apply MLP_init_heads; assumption.
    + rewrite init_layers_relu by assumption; cbn [bind app].
      apply MLP_init_heads; assumption.
  - assert (Hne : activation <> "relu"%string)
      by (intros E; apply String.eqb_eq in E; congruence).
    destruct (Z.ltb_spec 0 net_depth) as [Hd|Hd]; cbn [orb].
    + destruct (range_pos net_depth Hd) as [rest ->]; cbn [for_each].
      rewrite init_layer_unsupported by assumption; reflexivity.
    + rewrite (range_nonpos net_depth) by assumption; cbn [for_each bind].
      rewrite build_linear by lia.
      rewrite build_linear by lia.
      destruct (Z.ltb_spec 0 net_depth_condition) as [Hdc|Hdc].
      * destruct (range_pos net_depth_condition Hdc) as [rest ->].
        cbn [for_each].
        rewrite init_view_layer_unsupported by assumption; reflexivity.
      * rewrite (range_nonpos net_depth_condition) by assumption.
        cbn [for_each bind map].
        rewrite new_linear_Ok by lia.
        destruct (Z.ltb_spec 1 net_depth); [lia|].
        rewrite andb_false_r; reflexivity.
Qed.

(** The three outcomes, on the widths of the defaults: ['tanh'], a zero
    [skip_index] with eight layers, and the defaults themselves. *)
Lemma MLP_init_closed_form_witness :
  MLP_init 8 256 1 128 4 3 1 "tanh" 96 27 = Raise NotImplementedError
  /\ MLP_init 8 256 1 128 0 3 1 "relu" 96 27 = Raise ZeroDivisionError
  /\ MLP_init 8 256 1 128 4 3 1 "relu" 96 27
     = Ok (built_mlp 8 256 1 128 4 3 1 96 27).
Proof.
  split; [|split].
  - exact (MLP_init_closed_form 8 256 1 128 4 3 1 "tanh" 96 27
             ltac:(lia) ltac:(lia) ltac:(lia) ltac:(lia) ltac:(lia)
             ltac:(lia)).
  - exact (MLP_init_closed_form 8 256 1 128 0 3 1 "relu" 96 27
             ltac:(lia) ltac:(lia) ltac:(lia) ltac:(lia) ltac:(lia)
             ltac:(lia)).
  - exact (MLP_init_closed_form 8 256 1 128 4 3 1 "relu" 96 27
             ltac:(lia) ltac:(lia) ltac:(lia) ltac:(lia) ltac:(lia)
             ltac:(lia)).
Defined.

(** What [MLP.__init__] has built when it returns, whatever the widths. *)
Lemma MLP_init_Ok (net_depth net_width net_depth_condition
  net_width_condition skip num_rgb_channels num_density_channels : Z)
  (activation : string) (xyz_dim view_dim : Z) (m : MLP) :
  MLP_init net_depth net_width net_depth_condition net_width_condition skip
    num_rgb_channels num_density_channels activation xyz_dim view_dim = Ok m ->
  (activation = "relu"%string
   \/ (net_depth <= 0 /\ net_depth_condition <= 0))
  /\ (skip <> 0 \/ net_depth <= 1).
Proof.
  intros H; split.
  - destruct (String.eqb_spec activation "relu") as [Ea|Ea]; [left; exact Ea|].
    right.
    destruct (Z_le_gt_dec net_depth 0) as [H0|H0];
      [destruct (Z_le_gt_dec net_depth_condition 0) as [Hc|Hc]; [lia|] |];
      exfalso;
      pose proof (MLP_init_unsupported net_depth net_width
                    net_depth_condition net_width_condition skip
                    num_rgb_channels num_density_channels activation xyz_dim
                    view_dim Ea ltac:(lia)) as Hr;
      rewrite H in Hr; discriminate.
  - destruct (Z.eqb_spec skip 0) as [->|Hs]; [|left; exact Hs].
    right.
    destruct (Z_le_gt_dec net_depth 1) as [H1|H1]; [exact H1|].
    exfalso; unfold MLP_init in H.
    apply bind_Ok in H; destruct H as [ls [Hls _]].
    destruct (range_ge2 net_depth) as [rest Hr]; [lia|].
    rewrite Hr in Hls; cbn [for_each] in Hls.
    apply bind_Ok in Hls; destruct Hls as [l0 [_ Hls]].
    apply bind_Ok in Hls; destruct Hls as [l1 [Hl1 _]].
    rewrite init_layer_zero_skip in Hl1 by lia; discriminate.
Qed.

Lemma MLP_init_Ok_iff (net_depth net_width net_depth_condition
  net_width_condition skip num_rgb_channels num_density_channels : Z)
  (activation : string) (xyz_dim view_dim : Z) (m : MLP) :
  0 < net_width -> 0 < net_width_condition ->
  0 <= num_rgb_channels -> 0 <= num_density_channels ->
  0 <= xyz_dim -> 0 <= view_dim ->
  MLP_init net_depth net_width net_depth_condition net_width_condition skip
    num_rgb_channels num_density_channels activation xyz_dim view_dim = Ok m
  <-> (activation = "relu"%string
       \/ (net_depth <= 0 /\ net_depth_condition <= 0))
      /\ (skip <> 0 \/ net_depth <= 1)
      /\ m = built_mlp net_depth net_width net_depth_condition
               net_width_condition skip num_rgb_channels
               num_density_channels xyz_dim view_dim.
Proof.
  intros Hw Hwc Hrgb Hden Hx Hv.
  rewrite MLP_init_closed_form by assumption.
  destruct (String.eqb_spec activation "relu") as [Ea|Ea];
    destruct (Z.ltb_spec 0 net_depth) as [H0|H0];
    destruct (Z.ltb_spec 0 net_depth_condition) as [Hc|Hc];
    destruct (Z.eqb_spec skip 0) as [Hs|Hs];
    destruct (Z.ltb_spec 1 net_depth) as [H1|H1];
    cbn [negb andb orb];
    (split;
     [ intros H; try discriminate; injection H as <-;
       repeat split; auto; try (left; assumption); right; lia
     | intros [Ha [Hk ->]]; try reflexivity; exfalso;
       destruct Ha as [Ha|[Ha Ha']]; destruct Hk as [Hk|Hk];
       try contradiction; lia ]).
Qed.

Section ConstructorResult.
Variables (num_samples num_levels : Z) (resample_padding : R)
  (stop_resample_grad use_viewdirs disparity : bool) (shape_sel : string)
  (min_deg_point max_deg_point deg_view : Z) (density_sel : string)
  (density_noise density_bias : R) (rgb_sel : string) (rgb_padding : R)
  (disable_integration append_identity : bool)
  (mlp_net_depth mlp_net_width mlp_net_depth_condition
   mlp_net_width_condition mlp_skip_index mlp_num_rgb_channels
   mlp_num_density_channels : Z) (hidden_sel : string).

(** X2.  For widths that [torch.nn.Linear] accepts and [_xavier_init] can
    scale (positive [mlp_net_width] and [mlp_net_width_condition], no
    negative channel count, [min_deg_point <= max_deg_point] and a
    [deg_view] that is not negative), [MipNerf.__init__] returns exactly
    when the two output activations are ['sigmoid'] and ['softplus'] and its
    MLP can be built (['relu'], or no layer at all; a [skip_index] other
    than zero, or at most one layer in the first stack).  The model it
    returns stores the arguments as given, and its MLP is built for
    [2 * 3 * (max_deg_point - min_deg_point)] position features and
    [2 * 3 * deg_view] view features, three more when [append_identity] is
    set. *)
Theorem MipNerf_init_succeeds_iff (m : MipNerf) :
  0 < mlp_net_width -> 0 < mlp_net_width_condition ->
  0 <= mlp_num_rgb_channels -> 0 <= mlp_num_density_channels ->
  min_deg_point <= max_deg_point -> 0 <= deg_view ->
  MipNerf_init num_samples num_levels resample_padding stop_resample_grad
    use_viewdirs disparity shape_sel min_deg_point max_deg_point deg_view
    density_sel density_noise density_bias rgb_sel rgb_padding
    disable_integration append_identity mlp_net_depth mlp_net_width
    mlp_net_depth_condition mlp_net_width_condition mlp_skip_index
    mlp_num_rgb_channels mlp_num_density_channels hidden_sel = Ok m
  <-> rgb_sel = "sigmoid"%string
      /\ density_sel = "softplus"%string
      /\ (hidden_sel = "relu"%string
          \/ (mlp_net_depth <= 0 /\ mlp_net_depth_condition <= 0))
      /\ (mlp_skip_index <> 0 \/ mlp_net_depth <= 1)
      /\ m = mkMipNerf num_levels num_samples disparity shape_sel
               disable_integration min_deg_point max_deg_point use_viewdirs
               deg_view density_noise density_bias resample_padding
               stop_resample_grad
               (built_mlp mlp_net_depth mlp_net_width
                  mlp_net_depth_condition mlp_net_width_condition
                  mlp_skip_index mlp_num_rgb_channels
                  mlp_num_density_channels
                  ((max_deg_point - min_deg_point) * 3 * 2)
                  (if append_identity then deg_view * 3 * 2 + 3
                   else deg_view * 3 * 2))
               Sigmoid rgb_padding Softplus.
Proof.
  intros Hw Hwc Hrgb Hden Hdeg Hview.
  assert (Hx : 0 <= (max_deg_point - min_deg_point) * 3 * 2) by lia.
  assert (Hv : 0 <= (if append_identity then deg_view * 3 * 2 + 3
                     else deg_view * 3 * 2))
    by (destruct append_identity; lia).
  unfold MipNerf_init; split.
  - intros H.
    apply bind_Ok in H; destruct H as [net [Hnet H]].
    apply MLP_init_Ok_iff in Hnet; try assumption.
    destruct Hnet as [Ha [Hk ->]].
    apply bind_Ok in H; destruct H as [rgb_act [Hr H]].
    apply bind_Ok in H; destruct H as [density_act [Hdensity H]].
    destruct (String.eqb_spec rgb_sel "sigmoid"); [|discriminate].
    destruct (String.eqb_spec density_sel "softplus"); [|discriminate].
    injection Hr as <-; injection Hdensity as <-; injection H as <-.
    repeat split; assumption.
  - intros [-> [-> [Ha [Hk ->]]]].
    assert (Hnet := proj2 (MLP_init_Ok_iff mlp_net_depth mlp_net_width
      mlp_net_depth_condition mlp_net_width_condition mlp_skip_index
      mlp_num_rgb_channels mlp_num_density_channels hidden_sel
      ((max_deg_point - min_deg_point) * 3 * 2)
      (if append_identity then deg_view * 3 * 2 + 3 else deg_view * 3 * 2)
      _ Hw Hwc Hrgb Hden Hx Hv) (conj Ha (conj Hk eq_refl))).
    rewrite Hnet; reflexivity.
Qed.

End ConstructorResult.

(** The call [MipNerf()] with every argument at its default. *)
Lemma MipNerf_init_succeeds_iff_witness :
  MipNerf_init 128 2 (1 / 100) true true false "cone" 0 16 4 "softplus" 0
    (-1) "sigmoid" (1 / 1000) false true 8 256 1 128 4 3 1 "relu"
  = Ok (default_model 2 0).
Proof.
  apply (proj2 (MipNerf_init_succeeds_iff 128 2 (1 / 100) true true false
                  "cone" 0 16 4 "softplus" 0 (-1) "sigmoid" (1 / 1000)
                  false true 8 256 1 128 4 3 1 "relu" (default_model 2 0)
                  ltac:(lia) ltac:(lia) ltac:(lia) ltac:(lia) ltac:(lia)
                  ltac:(lia))).
  repeat split; try (left; reflexivity); left; discriminate.
Defined.

(** ** The shapes [MLP.forward] accepts and returns *)

Lemma range_to_nat (n : Z) : range n = range (Z.of_nat (Z.to_nat n)).
Proof. unfold range; rewrite Nat2Z.id; reflexivity. Qed.

(** The width of the tensor the first stack hands to the heads. *)
Lemma hidden_in_after_stack (net_width skip xyz_dim net_depth : Z) :
  1 <= net_depth ->
  hidden_in net_width skip xyz_dim net_depth
  = if ((net_depth - 1) mod skip =? 0) && (net_depth - 1 >? 0)
    then net_width + xyz_dim else net_width.
Proof.
  intros H; unfold hidden_in.
  destruct (Z.eqb_spec net_depth 0); [lia|].
  replace (net_depth >? 1) with (net_depth - 1 >? 0); [reflexivity|].
  rewrite !Z.gtb_ltb.
  destruct (Z.ltb_spec 0 (net_depth - 1)), (Z.ltb_spec 1 net_depth);
    auto; lia.
Qed.

Section ForwardShapes.
Context {T : TensorOps} {P : Params T}.
Context (L : ShapeLaws T P) (Strict : StrictShapeLaws T P).
Variables (net_depth net_width net_depth_condition net_width_condition skip
  num_rgb_channels num_density_channels xyz_dim view_dim : Z).
Variables (batch samples : Z) (x : tensor).
Hypothesis x_shape : shape x = [batch; samples; xyz_dim].

Let net : MLP :=
  built_mlp net_depth net_width net_depth_condition net_width_condition skip
    num_rgb_channels num_density_channels xyz_dim view_dim.

(** The second stack on a tensor of the width its first layer was built
    for. *)
Lemma run_view_layers_shape (lead : list Z) (y : tensor) (k : nat) :
  shape y = lead ++ [net_width + view_dim] ->
  exists yk,
    run_view_layers
      (map (view_layer net_width net_width_condition view_dim)
         (range (Z.of_nat k))) y = Ok yk
    /\ shape yk
       = lead ++ [if (k =? 0)%nat then net_width + view_dim
                  else net_width_condition].
Proof.
  intros Hy; induction k as [|k [yk [Hrun Hshape]]].
  - exists y; split; [reflexivity | exact Hy].
  - assert (Hin : shape yk
      = lead ++ [in_features (view_layer net_width net_width_condition
                                view_dim (Z.of_nat k))]).
    { rewrite Hshape; unfold view_layer; cbn [in_features].
      destruct k; [reflexivity|].
      destruct (Z.eqb_spec (Z.of_nat (S k)) 0); [lia | reflexivity]. }
    destruct (linear_shape _ yk lead Hin) as [z [Hz Sz]].
    exists (relu z); split.
    + unfold run_view_layers in *.
      rewrite range_S, map_app, for_each_app, Hrun.
      cbn [bind map for_each]; unfold layer_call; rewrite Hz; reflexivity.
    + rewrite relu_shape, Sz; reflexivity.
Qed.

(** The first stack of a built module, run on [x]. *)
Lemma run_built_layers :
  skip <> 0 -> 0 <= net_depth ->
  exists h,
    run_layers (skip_index net) x (enumerate (layers net)) x = Ok h
    /\ shape h
       = [batch; samples; hidden_in net_width skip xyz_dim net_depth].
Proof.
  intros Hs Hd.
  destruct (run_layers_prefix (L := L) net_width skip xyz_dim
              [batch; samples] x Hs x_shape (Z.to_nat net_depth))
    as [h [Hrun Hshape]].
  exists h; split.
  - unfold net, built_mlp; cbn [skip_index layers].
    rewrite enumerate_map_range, range_to_nat; exact Hrun.
  - rewrite Hshape, Z2Nat.id by assumption; reflexivity.
Qed.

(** X3.  The contract of the docstring of [MLP.forward].  On a module built
    with a [skip_index] other than zero, a first stack that does not end on
    a skip layer and at least one layer in the second stack, position
    features of shape [[batch, samples, xyz_dim]] and view features of shape
    [[batch, view_dim]] give a raw colour of shape
    [[batch, samples, num_rgb_channels]] and a raw density of shape
    [[batch, samples, num_density_channels]]: no layer raises. *)
Theorem MLP_forward_output_shapes (v : tensor) :
  skip <> 0 ->
  1 <= net_depth ->
  net_depth = 1 \/ (net_depth - 1) mod skip <> 0 ->
  1 <= net_depth_condition ->
  shape v = [batch; view_dim] ->
  exists raw_rgb raw_density,
    MLP_forward net x (Some v) = Ok (raw_rgb, raw_density)
    /\ shape raw_rgb = [batch; samples; num_rgb_channels]
    /\ shape raw_density = [batch; samples; num_density_channels].
Proof.
  intros Hs Hd Hend Hc Hv.
  destruct (run_built_layers Hs ltac:(lia)) as [h [Hrun Hh]].
  assert (Hw : hidden_in net_width skip xyz_dim net_depth = net_width).
  { rewrite hidden_in_after_stack by assumption.
    destruct Hend as [->|Hend]; [rewrite andb_false_r; reflexivity|].
    destruct (Z.eqb_spec ((net_depth - 1) mod skip) 0);
      [contradiction | reflexivity]. }
  rewrite Hw in Hh.
  destruct (linear_shape (density_layer net) h [batch; samples] Hh)
    as [d [Hdens Sd]].
  destruct (linear_shape (extra_layer net) h [batch; samples] Hh)
    as [b [Hb Sb]].
  destruct (repeat_shape v batch view_dim samples Hv) as [r [Hr Sr]].
  destruct (cat_shape b r [batch; samples] net_width view_dim Sb Sr)
    as [c [Hcat Sc]].
  destruct (run_view_layers_shape [batch; samples] c
              (Z.to_nat net_depth_condition) Sc) as [y [Hy Sy]].
  destruct (Nat.eqb_spec (Z.to_nat net_depth_condition) 0) as [E|_];
    [lia|].
  destruct (linear_shape (color_layer net) y [batch; samples] Sy)
    as [rgb [Hrgb Srgb]].
  exists rgb, d; split; [|split; [exact Srgb | exact Sd]].
  unfold MLP_forward; rewrite x_shape; cbn [nth_error bind].
  rewrite Hrun; cbn [bind]; rewrite Hdens; cbn [bind].
  rewrite Hb; cbn [bind]; rewrite Hr; cbn [bind]; rewrite Hcat; cbn [bind].
  replace (view_layers net)
    with (map (view_layer net_width net_width_condition view_dim)
            (range (Z.of_nat (Z.to_nat net_depth_condition))))
    by (rewrite <- range_to_nat; reflexivity).
  rewrite Hy; cbn [bind]; rewrite Hrgb; reflexivity.
Qed.

(** X4.  A first stack that ends on a skip layer cannot be evaluated.  When
    [net_depth - 1] is a positive multiple of [skip_index] the output of the
    last layer is concatenated with the input, and the density head, built
    for [net_width] inputs, rejects it: every call raises a shape error,
    with or without view direction (for [xyz_dim] other than zero). *)
Theorem MLP_forward_final_skip_raises (view_direction : option tensor) :
  skip <> 0 ->
  1 < net_depth ->
  (net_depth - 1) mod skip = 0 ->
  xyz_dim <> 0 ->
  MLP_forward net x view_direction = Raise RuntimeError.
Proof.
  intros Hs Hd Hmod Hx.
  destruct (run_built_layers Hs ltac:(lia)) as [h [Hrun Hh]].
  rewrite hidden_in_after_stack, Hmod in Hh by lia.
  destruct (Z.gtb_spec (net_depth - 1) 0); [|lia].
  cbn [Z.eqb andb] in Hh.
  unfold MLP_forward; rewrite x_shape; cbn [nth_error bind].
  rewrite Hrun; cbn [bind].
  rewrite (linear_mismatch (density_layer net) h [batch; samples]
             (net_width + xyz_dim) Hh); [reflexivity|].
  unfold net, built_mlp; cbn [density_layer in_features]; lia.
Qed.


End ForwardShapes.

(** The symbolic tensors obey the two further laws. *)
#[export] Instance SymStrictLaws : StrictShapeLaws SymOps SymParams.
Proof.
  constructor.
  - intros l x lead d H Hne; simpl in *.
    unfold sym_linear; rewrite H, split_last_app.
    destruct (Z.eqb_spec d (in_features l)); [contradiction | reflexivity].
  - intros v batch feature n H; simpl in *.
    unfold sym_repeat; rewrite H.
    eexists; split; reflexivity.
Qed.

(** The small module, with its view direction. *)
Lemma MLP_forward_output_shapes_witness :
  exists raw_rgb raw_density : sym,
    MLP_forward (T := SymOps) (built_mlp 2 4 1 4 4 3 1 6 3) small_x
      (Some small_view) = Ok (raw_rgb, raw_density)
    /\ sym_shape raw_rgb = [5; 7; 3]
    /\ sym_shape raw_density = [5; 7; 1].
Proof.
  apply (MLP_forward_output_shapes (T := SymOps) SymLaws SymStrictLaws
           2 4 1 4 4 3 1 6 3 5 7 small_x eq_refl small_view);
    try lia; try reflexivity.
  right; discriminate.
Defined.

(** Five layers with a skip connection every fourth. *)
Lemma MLP_forward_final_skip_raises_witness :
  MLP_forward (T := SymOps) (built_mlp 5 8 1 8 4 3 1 6 3) small_x
    (Some small_view) = Raise RuntimeError.
Proof.
  apply (MLP_forward_final_skip_raises (T := SymOps) SymLaws SymStrictLaws
           5 8 1 8 4 3 1 6 3 5 7 small_x eq_refl (Some small_view));
    try lia; reflexivity.
Defined.




(** ** How the levels compose *)

Section Levels.
Context {T : TensorOps} {P : Params T}.
Variable sample_along_rays :
  tensor -> tensor -> tensor -> Z -> tensor -> tensor -> bool -> bool ->
  string -> M (tensor * (tensor * tensor)).
Variable resample_along_rays :
  tensor -> tensor -> tensor -> tensor -> tensor -> bool -> string ->
  bool -> R -> M (tensor * (tensor * tensor)).
Variable integrated_pos_enc : tensor * tensor -> Z -> Z -> result tensor.
Variable pos_enc : tensor -> Z -> Z -> bool -> result tensor.
Variable volumetric_rendering :
  tensor -> tensor -> tensor -> tensor -> bool ->
  result (tensor * tensor * tensor * tensor).
Variables (m : MipNerf) (rays : Rays) (randomized white_bkgd : bool).

Let forward :=
  MipNerf_forward sample_along_rays resample_along_rays integrated_pos_enc
    pos_enc volumetric_rendering.
Let step := level sample_along_rays resample_along_rays integrated_pos_enc
              pos_enc volumetric_rendering m rays randomized white_bkgd.
Let first_levels :=
  run_levels sample_along_rays resample_along_rays integrated_pos_enc pos_enc
    volumetric_rendering m rays randomized white_bkgd.

Lemma for_eachM_app {I S : Type} (body : I -> S -> M S) (l1 l2 : list I)
  (s : S) (g : generator) :
  for_eachM (l1 ++ l2) body s g
  = mbind (for_eachM l1 body s) (for_eachM l2 body) g.
Proof.
  revert s g; induction l1 as [|i l1 IH]; intros s g; simpl.
  - reflexivity.
  - unfold mbind.
    destruct (body i s g) as [[s1 g1]|e]; [|reflexivity].
    rewrite IH; reflexivity.
Qed.

Lemma for_eachM_ext {I S : Type} (body body' : I -> S -> M S) (l : list I) :
  (forall i s g, body i s g = body' i s g) ->
  forall s g, for_eachM l body s g = for_eachM l body' s g.
Proof.
  intros H; induction l as [|i l IH]; intros s g; simpl; [reflexivity|].
  unfold mbind; rewrite H.
  destruct (body' i s g) as [[s1 g1]|e]; [apply IH | reflexivity].
Qed.

(** A loop raises exactly when one of its iterations does, after the
    iterations before it have returned. *)
Lemma loop_raises_iff {S : Type} (body : Z -> S -> M S) (s0 : S)
  (g : generator) (e : error) (n : nat) :
  for_eachM (range (Z.of_nat n)) body s0 g = Raise e
  <-> exists (k : nat) (st : S) (gk : generator),
        (k < n)%nat
        /\ for_eachM (range (Z.of_nat k)) body s0 g = Ok (st, gk)
        /\ body (Z.of_nat k) st gk = Raise e.
Proof.
  induction n as [|n IH].
  - split; [discriminate | intros [k [st [gk [Hk _]]]]; lia].
  - rewrite range_S, for_eachM_app; unfold mbind at 1.
    destruct (for_eachM (range (Z.of_nat n)) body s0 g) as [[st g1]|e1] eqn:E.
    + cbn [for_eachM]; unfold mbind.
      destruct (body (Z.of_nat n) st g1) as [[s2 g2]|e2] eqn:B.
      * split; [discriminate|].
        intros [k [st' [gk [Hk [Hrun Hbody]]]]].
        destruct (Nat.eq_dec k n) as [->|Hne].
        -- rewrite E in Hrun; injection Hrun as <- <-; congruence.
        -- assert (Habs : Ok (st, g1) = Raise e)
             by (apply IH; exists k, st', gk; repeat split; auto; lia).
           discriminate Habs.
      * split.
        -- intros H; injection H as ->.
           exists n, st, g1; repeat split; auto.
        -- intros [k [st' [gk [Hk [Hrun Hbody]]]]].
           destruct (Nat.eq_dec k n) as [->|Hne].
           ++ rewrite E in Hrun; injection Hrun as <- <-; congruence.
           ++ assert (Habs : Ok (st, g1) = Raise e)
                by (apply IH; exists k, st', gk; repeat split; auto; lia).
              discriminate Habs.
    + split.
      * intros H; injection H as ->.
        destruct (proj1 IH eq_refl) as [k [st' [gk [Hk H]]]].
        exists k, st', gk; split; [lia | exact H].
      * intros [k [st' [gk [Hk [Hrun Hbody]]]]].
        destruct (Nat.eq_dec k n) as [->|Hne]; [congruence|].
        apply IH; exists k, st', gk; repeat split; auto; lia.
Qed.

(** X7.  [forward] has no partial result: it raises exactly when some level
    raises after all the levels before it have returned, and the exception
    is that level's; what the earlier levels computed is lost with it. *)
Theorem forward_raises_iff (g : generator) (e : error) :
  forward m rays randomized white_bkgd g = Raise e
  <-> exists (k : nat) (st : loop_state) (gk : generator),
        (k < Z.to_nat (num_levels m))%nat
        /\ first_levels k g = Ok (st, gk)
        /\ step (Z.of_nat k) st gk = Raise e.
Proof.
  pose proof (loop_raises_iff step ([], None, None) g e
                (Z.to_nat (num_levels m))) as H.
  rewrite <- range_to_nat in H.
  unfold forward, MipNerf_forward, first_levels, run_levels.
  fold step; unfold mbind at 1.
  destruct (for_eachM (range (num_levels m)) step ([], None, None) g)
    as [[[[ret t_last] w_last] g1]|e1].
  - split; [discriminate|].
    intros Hx; apply H in Hx; discriminate Hx.
  - split; intros Hx.
    + injection Hx as ->; apply H; reflexivity.
    + apply H in Hx; injection Hx as ->; reflexivity.
Qed.

(** A run of levels only appends to [ret], one entry per level. *)
Lemma loop_appends (items : list Z) :
  forall (ret : list RenderOutput) (t_prev w_prev : option tensor)
         (g g' : generator) (st' : loop_state),
    for_eachM items step (ret, t_prev, w_prev) g = Ok (st', g') ->
    exists new, fst (fst st') = ret ++ new
                /\ List.length new = List.length items.
Proof.
  induction items as [|i items IH]; intros ret t_prev w_prev g g' st' H.
  - simpl in H; unfold mret in H; injection H as <- <-.
    exists []; split; [simpl; rewrite app_nil_r|]; reflexivity.
  - simpl in H; apply mbind_Ok in H; destruct H as [st1 [g1 [H1 H]]].
    apply level_Ok in H1.
    destruct H1 as [t_samples [means_covs [g2 [samples_enc [raw_rgb
      [raw_density [noisy_density [comp_rgb [distance [acc [weights
      [_ [_ [_ [_ [_ ->]]]]]]]]]]]]]]]].
    apply IH in H; destruct H as [new [Hnew Hlen]].
    exists ((comp_rgb, distance, acc, weights, t_samples) :: new); split.
    + rewrite Hnew, <- app_assoc; reflexivity.
    + simpl; rewrite Hlen; reflexivity.
Qed.

Lemma range_split (n total : Z) :
  0 <= n <= total ->
  range total
  = range n
    ++ map Z.of_nat (seq (Z.to_nat n) (Z.to_nat total - Z.to_nat n)).
Proof.
  intros H; unfold range; rewrite <- map_app, <- seq_app.
  replace (Z.to_nat n + (Z.to_nat total - Z.to_nat n))%nat
    with (Z.to_nat total) by lia.
  reflexivity.
Qed.

(** X8.  The levels are computed one after the other, each from the one
    before: whenever [forward] returns, the first [n] entries of what it
    returns are what the same model with [num_levels = n] returns on the
    same inputs from the same generator state, for every [n] up to the
    level count. *)
Theorem forward_prefix (n : Z) (g g' : generator) (ret : list RenderOutput) :
  0 <= n <= num_levels m ->
  forward m rays randomized white_bkgd g = Ok (ret, g') ->
  exists g1,
    forward (with_num_levels m n) rays randomized white_bkgd g
    = Ok (firstn (Z.to_nat n) ret, g1).
Proof.
  intros Hn H; unfold forward, MipNerf_forward in *.
  apply mbind_Ok in H; destruct H as [[[ret' t_last] w_last] [g2 [H H']]].
  unfold mret in H'; injection H' as -> ->.
  fold step in H.
  rewrite (range_split n (num_levels m) Hn), for_eachM_app in H.
  apply mbind_Ok in H; destruct H as [[[ret1 t1] w1] [g1 [H1 H2]]].
  destruct (loop_appends _ _ _ _ _ _ _ H1) as [new1 [E1 L1]].
  destruct (loop_appends _ _ _ _ _ _ _ H2) as [new2 [E2 _]].
  simpl in E1, E2; subst ret1 ret.
  rewrite range_length in L1.
  exists g1.
  change (level sample_along_rays resample_along_rays integrated_pos_enc
            pos_enc volumetric_rendering (with_num_levels m n) rays
            randomized white_bkgd) with step.
  change (num_levels (with_num_levels m n)) with n.
  unfold mbind at 1; rewrite H1; unfold mret.
  rewrite firstn_app, L1, Nat.sub_diag, firstn_all2 by lia.
  simpl; rewrite app_nil_r; reflexivity.
Qed.

(** X9.  A level count of zero or below is not an error: [forward] returns
    the empty sequence, calls none of the routines and leaves the generator
    as it found it. *)
Theorem forward_without_levels (g : generator) :
  num_levels m <= 0 ->
  forward m rays randomized white_bkgd g = Ok ([], g).
Proof.
  intros H; unfold forward, MipNerf_forward.
  rewrite range_nonpos by assumption; reflexivity.
Qed.

(** X10.  With [use_viewdirs] unset the view directions are never looked
    at: [forward] does the same whatever routine stands for [pos_enc] and
    whatever the rays carry as view directions. *)
Theorem forward_ignores_viewdirs
  (other_pos_enc : tensor -> Z -> Z -> bool -> result tensor)
  (other_viewdirs : tensor) (g : generator) :
  use_viewdirs m = false ->
  MipNerf_forward sample_along_rays resample_along_rays integrated_pos_enc
    other_pos_enc volumetric_rendering m (with_viewdirs rays other_viewdirs)
    randomized white_bkgd g
  = forward m rays randomized white_bkgd g.
Proof.
  intros H; unfold forward, MipNerf_forward, mbind.
  rewrite (for_eachM_ext _ step).
  - reflexivity.
  - intros i [[ret t_prev] w_prev] g0.
    unfold step, level, predict; rewrite H; reflexivity.
Qed.

End Levels.

(** The two models of the examples are what the constructor returns. *)
Lemma no_identity_model_built :
  MipNerf_default 2 "cone" 0 false = Ok no_identity_model.
Proof. reflexivity. Qed.

Lemma no_view_model_built :
  MipNerf_init 128 2 (1 / 100) true false false "cone" 0 16 4 "softplus" 0
    (-1) "sigmoid" (1 / 1000) false true 8 256 1 256 4 3 1 "relu"
  = Ok no_view_model.
Proof. reflexivity. Qed.

(** The model built with [append_identity=False] raises in its first
    level. *)
Lemma forward_raises_iff_witness :
  exists (k : nat) (st : loop_state (T := SymOps)) (gk : nat),
    (k < 2)%nat
    /\ run_levels sym_sample_along_rays sym_resample_along_rays
         sym_integrated_pos_enc sym_pos_enc sym_volumetric_rendering
         no_identity_model (sym_rays 1024) false false k 0%nat = Ok (st, gk)
    /\ level sym_sample_along_rays sym_resample_along_rays
         sym_integrated_pos_enc sym_pos_enc sym_volumetric_rendering
         no_identity_model (sym_rays 1024) false false (Z.of_nat k) st gk
       = Raise RuntimeError.
Proof.
  apply (proj1 (forward_raises_iff (T := SymOps) sym_sample_along_rays
                  sym_resample_along_rays sym_integrated_pos_enc sym_pos_enc
                  sym_volumetric_rendering no_identity_model (sym_rays 1024)
                  false false 0%nat RuntimeError)).
  reflexivity.
Defined.

(** The first of the two levels of the default model. *)
Lemma forward_prefix_witness :
  exists (ret : list (RenderOutput (T := SymOps))) (g' g1 : nat),
    sym_forward (default_model 2 0) (sym_rays 1024) false false 0%nat
    = Ok (ret, g')
    /\ sym_forward (default_model 1 0) (sym_rays 1024) false false 0%nat
       = Ok (firstn 1 ret, g1).
Proof.
  destruct (sym_forward (default_model 2 0) (sym_rays 1024) false false
              0%nat) as [[ret g']|e] eqn:H; [|discriminate].
  destruct (forward_prefix (T := SymOps) sym_sample_along_rays
              sym_resample_along_rays sym_integrated_pos_enc sym_pos_enc
              sym_volumetric_rendering (default_model 2 0) (sym_rays 1024)
              false false 1 0%nat g' ret ltac:(simpl; lia) H) as [g1 Hp].
  exists ret, g', g1; split; [reflexivity | exact Hp].
Defined.

Lemma forward_without_levels_witness :
  sym_forward (default_model (-3) 0) (sym_rays 1024) true false 7%nat
  = Ok ([], 7%nat).
Proof.
  apply (forward_without_levels (T := SymOps) sym_sample_along_rays
           sym_resample_along_rays sym_integrated_pos_enc sym_pos_enc
           sym_volumetric_rendering (default_model (-3) 0) (sym_rays 1024)
           true false 7%nat).
  simpl; lia.
Defined.

(** An encoder that always raises, and other view directions. *)
Lemma forward_ignores_viewdirs_witness :
  MipNerf_forward sym_sample_along_rays sym_resample_along_rays
    sym_integrated_pos_enc (fun _ _ _ _ => Raise RuntimeError)
    sym_volumetric_rendering no_view_model
    (with_viewdirs (sym_rays 1024) (mkSym [7] (Input "elsewhere")))
    false false 0%nat
  = sym_forward no_view_model (sym_rays 1024) false false 0%nat.
Proof.
  apply (forward_ignores_viewdirs (T := SymOps) sym_sample_along_rays
           sym_resample_along_rays sym_integrated_pos_enc sym_pos_enc
           sym_volumetric_rendering no_view_model (sym_rays 1024) false
           false (fun _ _ _ _ => Raise RuntimeError)
           (mkSym [7] (Input "elsewhere")) 0%nat).
  reflexivity.
Defined.

(** ** Density and colour on real tensors *)

Lemma softplusR_pos (x : R) : (0 < softplusR x)%R.
Proof.
  unfold softplusR; rewrite <- ln_1.
  pose proof (exp_pos x).
  apply ln_increasing; lra.
Qed.

(** X11.  On real tensors the density handed to the integrator is, entry by
    entry, [softplus(raw_density + density_bias)], and it is strictly
    positive whatever the network predicted and whatever the bias. *)
Theorem density_is_positive (m : MipNerf) (raw_density : rows) :
  density_activation m = Softplus ->
  density_of_raw (T := RealOps) m raw_density
  = map (map (fun x => softplusR (x + density_bias m))) raw_density
  /\ Forall (Forall (fun d => 0 < d)%R)
       (density_of_raw (T := RealOps) m raw_density).
Proof.
  intros Hact.
  assert (Heq : density_of_raw (T := RealOps) m raw_density
    = map (map (fun x => softplusR (x + density_bias m))) raw_density).
  { unfold density_of_raw; rewrite Hact; simpl; unfold rows_map.
    rewrite map_map; apply map_ext; intros row.
    rewrite map_map; reflexivity. }
  split; [exact Heq|].
  rewrite Heq; apply Forall_map, Forall_forall; intros row _.
  apply Forall_map, Forall_forall; intros x _.
  apply softplusR_pos.
Qed.

Lemma density_is_positive_witness :
  Forall (Forall (fun d => 0 < d)%R)
    (density_of_raw (T := RealOps) (default_model 2 0) [[0; -50; 3]]%R).
Proof.
  exact (proj2 (density_is_positive (default_model 2 0) [[0; -50; 3]]%R
                  eq_refl)).
Defined.

Lemma sigmoidR_ln (a : R) : (0 < a)%R -> sigmoidR (ln a) = (a / (1 + a))%R.
Proof.
  intros Ha; unfold sigmoidR.
  rewrite exp_Ropp, exp_ln by assumption.
  field; lra.
Qed.

(** X12.  What the padding is for.  With a positive [rgb_padding] the colour
    handed to the integrator is exactly 0 at the finite raw value
    [ln (p / (1 + p))] and exactly 1 at [ln ((1 + p) / p)], where the plain
    sigmoid reaches neither. *)
Theorem padded_colour_reaches_0_and_1 (m : MipNerf) :
  rgb_activation m = Sigmoid ->
  (0 < rgb_padding m)%R ->
  rgb_of_raw (T := RealOps) m
    [[ln (rgb_padding m / (1 + rgb_padding m));
      ln ((1 + rgb_padding m) / rgb_padding m)]]%R
  = [[0; 1]]%R.
Proof.
  intros Hact Hp.
  unfold rgb_of_raw; rewrite Hact; simpl.
  rewrite !sigmoidR_ln by (apply Rdiv_lt_0_compat; lra).
  repeat f_equal; field; lra.
Qed.

Lemma padded_colour_reaches_0_and_1_witness :
  rgb_of_raw (T := RealOps) (default_model 2 0)
    [[ln (1 / 1000 / (1 + 1 / 1000)); ln ((1 + 1 / 1000) / (1 / 1000))]]%R
  = [[0; 1]]%R.
Proof.
  apply (padded_colour_reaches_0_and_1 (default_model 2 0) eq_refl).
  simpl; lra.
Defined.

(** ** A view encoding of the wrong width *)

Section ViewWidth.
Context {T : TensorOps} {P : Params T}.
Context (L : ShapeLaws T P) (Strict : StrictShapeLaws T P).
Variables (net_depth net_width net_depth_condition net_width_condition skip
  num_rgb_channels num_density_channels xyz_dim view_dim : Z).
Variables (batch samples feature : Z) (x v : tensor).
Hypothesis x_shape : shape x = [batch; samples; xyz_dim].
Hypothesis v_shape : shape v = [batch; feature].

(** X13.  [MLP.forward] accepts a view encoding of one width only, the
    [view_dim] the module was built with: on a module whose first stack
    runs and whose second stack has a layer, view features of any other
    width reach the first view layer concatenated with the bottleneck and
    are rejected with a shape error. *)
Theorem MLP_forward_view_width_mismatch :
  skip <> 0 ->
  1 <= net_depth ->
  net_depth = 1 \/ (net_depth - 1) mod skip <> 0 ->
  1 <= net_depth_condition ->
  feature <> view_dim ->
  MLP_forward
    (built_mlp net_depth net_width net_depth_condition net_width_condition
       skip num_rgb_channels num_density_channels xyz_dim view_dim)
    x (Some v)
  = Raise RuntimeError.
Proof.
  intros Hs Hd Hend Hc Hne.
  set (net := built_mlp net_depth net_width net_depth_condition
                net_width_condition skip num_rgb_channels
                num_density_channels xyz_dim view_dim).
  destruct (run_built_layers L net_depth net_width net_depth_condition
              net_width_condition skip num_rgb_channels num_density_channels
              xyz_dim view_dim batch samples x x_shape Hs ltac:(lia))
    as [h [Hrun Hh]].
  fold net in Hrun.
  assert (Hw : hidden_in net_width skip xyz_dim net_depth = net_width).
  { rewrite hidden_in_after_stack by assumption.
    destruct Hend as [->|Hend]; [rewrite andb_false_r; reflexivity|].
    destruct (Z.eqb_spec ((net_depth - 1) mod skip) 0);
      [contradiction | reflexivity]. }
  rewrite Hw in Hh.
  destruct (linear_shape (density_layer net) h [batch; samples] Hh)
    as [d [Hdens _]].
  destruct (linear_shape (extra_layer net) h [batch; samples] Hh)
    as [b [Hb Sb]].
  destruct (repeat_shape v batch feature samples v_shape) as [r [Hr Sr]].
  destruct (cat_shape b r [batch; samples] net_width feature Sb Sr)
    as [c [Hcat Sc]].
  unfold MLP_forward; rewrite x_shape; cbn [nth_error bind].
  rewrite Hrun; cbn [bind]; rewrite Hdens; cbn [bind].
  rewrite Hb; cbn [bind]; rewrite Hr; cbn [bind]; rewrite Hcat; cbn [bind].
  unfold net, built_mlp; cbn [view_layers].
  destruct (range_pos net_depth_condition) as [rest ->]; [lia|].
  unfold run_view_layers; cbn [map for_each]; unfold layer_call.
  rewrite (linear_mismatch _ c [batch; samples] (net_width + feature) Sc);
    [reflexivity|].
  unfold view_layer; cbn [in_features Z.eqb]; lia.
Qed.

End ViewWidth.

(** The small module with a view encoding of four features instead of
    three. *)
Lemma MLP_forward_view_width_mismatch_witness :
  MLP_forward (T := SymOps) (built_mlp 2 4 1 4 4 3 1 6 3) small_x
    (Some (mkSym [5; 4] (Input "viewdirs"))) = Raise RuntimeError.
Proof.
  apply (MLP_forward_view_width_mismatch (T := SymOps) SymLaws
           SymStrictLaws 2 4 1 4 4 3 1 6 3 5 7 4 small_x
           (mkSym [5; 4] (Input "viewdirs")) eq_refl eq_refl);
    try lia.
  right; discriminate.
Defined.
